(** * Resume screening helpers: a shallow embedding of [agents.py] and
      [helpers.py], and the properties of the scoring engine.

    Python values are modelled as follows.
    - [str] is a list of code points, each an [N]; a literal of the source
      is written [lit "..."].  [str.lower] and [str.title] follow the
      Unicode case tables, of which the rows of the ASCII letters, of
      U+212A KELVIN SIGN and of U+0130 LATIN CAPITAL LETTER I WITH DOT
      ABOVE are modelled: these are the characters whose lower case holds
      an ASCII character, so that whether an ASCII string occurs in the
      lower case of a text is decided as Python decides it, for every
      text.  A character without a row here is taken as uncased: for a
      string with other letters outside ASCII, [lower] and [title] are
      Python's only up to the case of these letters.  [str.isspace] is
      modelled in full.
    - [int] is [Z]; [float] is the primitive binary64 [PrimFloat.float], so
      that [/], [*], [+], [round] and [int] on floats are the IEEE 754
      operations Python performs.
    - An argument that may be [None] is an [option]; [if not x] is a test on
      [None] and on the empty value.
    - A [dict] whose iteration order matters is an association list. *)

From Stdlib Require Import ZArith NArith Lia Bool List String Ascii.
From Stdlib Require Import Permutation Sorted.
From Stdlib Require PrimFloat FloatOps SpecFloat Uint63.
Import ListNotations.

Local Open Scope string_scope.
Local Open Scope list_scope.
Local Open Scope Z_scope.

(** ** Strings *)

(** A code point. *)
Definition char : Type := N.

Definition str : Type := list char.

(** A string literal of the source (ASCII). *)
Fixpoint lit (s : string) : str :=
  match s with
  | EmptyString => []
  | String c s' => N_of_ascii c :: lit s'
  end.

Module Str.

Local Open Scope N_scope.

Definition is_ascii (c : char) : bool := c <? 128.

Definition is_ascii_upper (c : char) : bool := (65 <=? c) && (c <=? 90).

Definition is_ascii_lower (c : char) : bool := (97 <=? c) && (c <=? 122).

(** U+212A KELVIN SIGN: an upper-case letter whose lower case is [k]. *)
Definition KELVIN : char := 8490.

(** U+0130 LATIN CAPITAL LETTER I WITH DOT ABOVE: an upper-case letter
    whose lower case is two characters, [i] and U+0307 COMBINING DOT
    ABOVE. *)
Definition DOTTED_I : char := 304.

Definition COMBINING_DOT : char := 775.

Definition is_cased (c : char) : bool :=
  is_ascii_upper c || is_ascii_lower c || (c =? KELVIN) || (c =? DOTTED_I).

(** The lower case of a character of ASCII (and of a character without a
    row: itself). *)
Definition lower_ascii (c : char) : char :=
  if is_ascii_upper c then c + 32 else c.

(** The lower-case mapping: a character gives one character or more. *)
Definition lower_char (c : char) : str :=
  if c =? KELVIN then [107]
  else if c =? DOTTED_I then [105; COMBINING_DOT]
  else [lower_ascii c].

(** The title-case mapping (the Kelvin sign and the dotted I are their own
    title case). *)
Definition title_char (c : char) : char :=
  if is_ascii_lower c then c - 32 else c.

(** [s.lower()] *)
Definition lower (s : str) : str := flat_map lower_char s.

(** [s.title()]: a cased character is title-cased when the character before
    it is not cased, and lower-cased otherwise. *)
Fixpoint title_from (previous_is_cased : bool) (s : str) : str :=
  match s with
  | [] => []
  | c :: s' =>
      if is_cased c
      then (if previous_is_cased then lower_char c else [title_char c])
           ++ title_from true s'
      else c :: title_from false s'
  end.

Definition title (s : str) : str := title_from false s.

(** [t.startswith(u)] *)
Fixpoint prefix (u t : str) : bool :=
  match u, t with
  | [], _ => true
  | _ :: _, [] => false
  | a :: u', b :: t' => (a =? b) && prefix u' t'
  end.

(** [u in t] on strings: [u] occurs in [t] as a contiguous substring. *)
Fixpoint str_in (u t : str) : bool :=
  if prefix u t then true
  else match t with
       | [] => false
       | _ :: t' => str_in u t'
       end.

(** [s.replace(a, b)] for single characters [a] and [b]. *)
Definition replace_char (a b : char) (s : str) : str :=
  map (fun c => if c =? a then b else c) s.

(** The characters [str.isspace] holds of. *)
Definition WHITESPACE : list char :=
  [9; 10; 11; 12; 13; 28; 29; 30; 31; 32; 133; 160; 5760;
   8192; 8193; 8194; 8195; 8196; 8197; 8198; 8199; 8200; 8201; 8202;
   8232; 8233; 8239; 8287; 12288].

Definition is_space (c : char) : bool := existsb (N.eqb c) WHITESPACE.

Fixpoint lstrip (s : str) : str :=
  match s with
  | [] => []
  | c :: s' => if is_space c then lstrip s' else s
  end.

Fixpoint rstrip (s : str) : str :=
  match s with
  | [] => []
  | c :: s' =>
      match rstrip s' with
      | [] => if is_space c then [] else [c]
      | r => c :: r
      end
  end.

(** [s.strip()] *)
Definition strip (s : str) : str := rstrip (lstrip s).

Definition is_empty (s : str) : bool :=
  match s with [] => true | _ => false end.

(** [s == t] *)
Fixpoint eqb (s t : str) : bool :=
  match s, t with
  | [], [] => true
  | a :: s', b :: t' => (a =? b) && eqb s' t'
  | _, _ => false
  end.

(** [x in l] for a list of strings. *)
Definition mem (x : str) (l : list str) : bool := existsb (eqb x) l.

End Str.

(** ** Truthiness of optional arguments *)

(** [text if text else ""]: [None] and [""] are both falsy. *)
Definition text_or_empty (t : option str) : str :=
  match t with
  | Some s => s
  | None => []
  end.

Definition truthy (t : option str) : bool :=
  negb (Str.is_empty (text_or_empty t)).

(** [l or []] *)
Definition list_or_empty {A : Type} (l : option (list A)) : list A :=
  match l with
  | Some l => l
  | None => []
  end.
(** ** Floats *)

Module Flt.

Import SpecFloat PrimFloat.

(** Conversion of a Python [int] in an arithmetic operation with a float;
    exact for [0 <= z < 2^53], which covers every score and weight. *)
Definition of_int (z : Z) : float := of_uint63 (Uint63.of_Z z).

(** The literals [0.6] and [0.4], written as the binary64 values Python
    reads them as. *)
Definition lit_0_6 : float := 0x1.3333333333333p-1%float.
Definition lit_0_4 : float := 0x1.999999999999ap-2%float.

(** [int(x)]: truncation toward zero. *)
Definition to_int (x : float) : Z :=
  match FloatOps.Prim2SF x with
  | S754_finite s m e =>
      let mag := if 0 <=? e then Z.pos m * 2 ^ e
                 else Z.pos m / 2 ^ (- e) in
      if s then - mag else mag
  | _ => 0
  end.

(** [round(x)]: nearest integer, a tie going to the even one. *)
Definition round (x : float) : Z :=
  match FloatOps.Prim2SF x with
  | S754_finite s m e =>
      let mag :=
        if 0 <=? e then Z.pos m * 2 ^ e
        else
          let d := 2 ^ (- e) in
          let q := Z.pos m / d in
          let r := Z.pos m mod d in
          if 2 * r <? d then q
          else if d <? 2 * r then q + 1
          else if Z.even q then q else q + 1 in
      if s then - mag else mag
  | _ => 0
  end.

End Flt.

(** ** The domain skill catalog ([agents.py]) *)

(** The table, as the source writes it. *)
Definition DOMAIN_SKILL_TABLE : list (string * list (string * Z)) :=
  [ ("Data Scientist",
      [("python",5); ("pandas",5); ("numpy",5); ("scikit-learn",5);
       ("machine learning",5); ("statistics",4); ("sql",4);
       ("visualization",3); ("spark",3); ("tensorflow",4)]);
    ("AI/ML Engineer",
      [("python",5); ("deep learning",5); ("pytorch",5); ("tensorflow",5);
       ("computer vision",4); ("nlp",4); ("docker",3); ("mlops",3);
       ("keras",3); ("cuda",2)]);
    ("Frontend Developer",
      [("html",5); ("css",5); ("javascript",5); ("react",5);
       ("typescript",4); ("webpack",3); ("vue",3); ("accessibility",3);
       ("performance",3); ("testing",3)]);
    ("Backend Developer",
      [("python",5); ("django",5); ("flask",4); ("node.js",4);
       ("sql",4); ("rest api",4); ("docker",3); ("microservices",4);
       ("postgresql",3); ("redis",3)]);
    ("Cloud Engineer",
      [("aws",5); ("azure",5); ("gcp",5); ("docker",4);
       ("kubernetes",4); ("terraform",4); ("serverless",3); ("monitoring",3);
       ("ci/cd",4); ("security",3)]);
    ("Software Engineer",
      [("python",5); ("java",5); ("data structures",5); ("algorithms",5);
       ("git",4); ("oop",4); ("system design",4); ("microservices",3);
       ("concurrency",3); ("testing",3)]);
    ("QA Engineer",
      [("testing",5); ("selenium",4); ("pytest",4); ("manual testing",5);
       ("automation",4); ("performance testing",3); ("api testing",3);
       ("bug tracking",3); ("rest api",3); ("ci/cd",3)]) ].

Definition DOMAIN_SKILL_MAP : list (str * list (str * Z)) :=
  map (fun d => (lit (fst d), map (fun s => (lit (fst s), snd s)) (snd d)))
      DOMAIN_SKILL_TABLE.

(** [d.get(key, [])] *)
Fixpoint dict_get {V : Type} (d : list (str * list V)) (key : str)
  : list V :=
  match d with
  | [] => []
  | (k, v) :: d' => if Str.eqb key k then v else dict_get d' key
  end.

Definition dict_keys {V : Type} (d : list (str * V)) : list str :=
  map fst d.

Definition dict_values {V : Type} (d : list (str * V)) : list V :=
  map snd d.

(** A requirement dict [{"skill", "importance"}]; [compute_domain_match]
    adds the key ["score"] to its copies. *)
Record Requirement : Type := mkReq {
  skill : str;
  importance : Z;
  score : option Z
}.

Definition domain_required_skills (domain : str) : list Requirement :=
  map (fun si => mkReq (Str.title (fst si)) (snd si) None)
      (dict_get DOMAIN_SKILL_MAP domain).

(** [sum([...])] *)
Definition sum (l : list Z) : Z := fold_left Z.add l 0.

(** [n or 1] on integers *)
Definition or_1 (n : Z) : Z := if n =? 0 then 1 else n.

(** ** Domain match ([compute_domain_match]) *)

Record MatchResult : Type := mkMatch {
  matched : list Requirement;
  missing : list Requirement;
  match_percent : Z
}.

Definition set_score (v : Z) (k : Requirement) : Requirement :=
  mkReq (skill k) (importance k) (Some v).

(** The text the requirements are searched in. *)
Definition match_text (resume_text : option str) : str :=
  if truthy resume_text then Str.lower (text_or_empty resume_text) else [].

(** The test of the loop: [k['skill'].lower() in txt]. *)
Definition skill_in (txt : str) (k : Requirement) : bool :=
  Str.str_in (Str.lower (skill k)) txt.

(** One iteration of the loop over [req]; the state is
    [(matched, missing, matched_weight)]. *)
Definition match_step (txt : str)
  (st : list Requirement * list Requirement * Z) (k : Requirement)
  : list Requirement * list Requirement * Z :=
  let '(m, mm, w) := st in
  if skill_in txt k
  then (m ++ [k], mm, w + importance k)
  else (m, mm ++ [k], w).

Definition match_loop (txt : str) (req : list Requirement)
  : list Requirement * list Requirement * Z :=
  fold_left (match_step txt) req ([], [], 0).

Definition total_weight (req : list Requirement) : Z :=
  or_1 (sum (map importance req)).

(** [int(round((matched_weight / total_weight) * 100))] *)
Definition percent (matched_weight total : Z) : Z :=
  Flt.round (PrimFloat.mul
               (PrimFloat.div (Flt.of_int matched_weight) (Flt.of_int total))
               (Flt.of_int 100)).

Definition compute_domain_match (resume_text : option str)
  (domain : str) : MatchResult :=
  let req := domain_required_skills domain in
  let txt := match_text resume_text in
  let total := total_weight req in
  let '(m, mm, w) := match_loop txt req in
  mkMatch (map (fun k => set_score (Z.min 10 (importance k * 2)) k) m)
          (map (set_score 0) mm)
          (percent w total).

(** ** The ATS keyword score ([ats_score] in [helpers.py]) *)

Definition ATS_KEYWORDS : list str :=
  map lit
  ["python"; "java"; "machine learning"; "ai"; "sql"; "data science";
   "flask"; "react"; "node.js"; "cloud"; "aws"; "docker";
   "communication"; "leadership"; "tensorflow"; "pytorch"; "sql";
   "django"; "kubernetes"; "terraform"].

(** The test of the loop: [word.lower() in tl]. *)
Definition keyword_in (tl word : str) : bool :=
  Str.str_in (Str.lower word) tl.

(** One iteration of the loop over the keywords. *)
Definition ats_step (tl : str) (score : Z) (word : str) : Z :=
  if keyword_in tl word then score + 7 else score.

Definition ats_score (text : option str) : Z :=
  if truthy text
  then Z.min 100 (fold_left (ats_step (Str.lower (text_or_empty text)))
                            ATS_KEYWORDS 0)
  else 0.

(** ** Batch analysis ([batch_resume_analysis]) *)

(** [int((ats * 0.6) + (match * 0.4))] *)
Definition combine (ats mp : Z) : Z :=
  Flt.to_int (PrimFloat.add (PrimFloat.mul (Flt.of_int ats) Flt.lit_0_6)
                            (PrimFloat.mul (Flt.of_int mp) Flt.lit_0_4)).

(** [sorted(l, key=key, reverse=True)]: a stable sort into descending keys.
    An element goes in front of the first one whose key is not larger, so
    that elements with equal keys keep the order they came in. *)
Fixpoint insert_desc {A : Type} (key : A -> Z) (x : A) (l : list A)
  : list A :=
  match l with
  | [] => [x]
  | y :: l' => if key x <? key y then y :: insert_desc key x l'
               else x :: l
  end.

Definition sorted_reverse {A : Type} (key : A -> Z) (l : list A) : list A :=
  fold_right (insert_desc key) [] l.

Module Rec.
Record t : Type := make {
  filename : str;
  ats_score : Z;
  match_percent : Z;
  combined_score : Z
}.
End Rec.

(** What [extract_text_from_pdf] does on a file object: it raises, or it
    returns a text or [None]. *)
Inductive Extraction : Type :=
| Raised
| Returned (text : option str).

Section Batch.

Variable FileObj : Type.
Variable extract_text_from_pdf : FileObj -> Extraction.

Record Entry : Type := mkEntry {
  entry_filename : str;
  entry_file : FileObj
}.

(** The [try] block: a raised exception leaves the empty text. *)
Definition entry_text (entry : Entry) : option str :=
  match extract_text_from_pdf (entry_file entry) with
  | Raised => Some []
  | Returned text => text
  end.

(** The body of the loop over [resume_files]. *)
Definition analyse (domain : str) (entry : Entry) : Rec.t :=
  let text := entry_text entry in
  let ats := ats_score text in
  let mp := match_percent (compute_domain_match text domain) in
  Rec.make (entry_filename entry) ats mp (combine ats mp).

Definition batch_resume_analysis (resume_files : list Entry) (domain : str)
  : list Rec.t :=
  let out := fold_left (fun out entry => out ++ [analyse domain entry])
                       resume_files [] in
  sorted_reverse Rec.combined_score out.

End Batch.

Arguments mkEntry {FileObj}.
Arguments entry_filename {FileObj}.
Arguments entry_file {FileObj}.
Arguments entry_text {FileObj}.
Arguments analyse {FileObj}.
Arguments batch_resume_analysis {FileObj}.

(** ** Interview questions ([generate_interview_questions_offline]) *)

Module QA.
Record t : Type := make {
  q : str;
  a : str;
  skill : option str
}.
End QA.

Definition FALLBACK_QUESTIONS : list QA.t :=
  [ QA.make (lit "Tell me about yourself.")
            (lit "Short summary focusing on relevant experience.") None;
    QA.make (lit "Why this role?") (lit "Explain motivation and fit.") None ].

Definition CLOSING_QUESTION : QA.t :=
  QA.make (lit "Describe a challenge and how you solved it.")
          (lit "Context, action, result.") None.

(** The body of the inner loop: the question and answer of a difficulty for
    a skill. *)
Definition question_for (difficulty skill : str) : QA.t :=
  if Str.eqb difficulty (lit "Basic") then
    QA.make (lit "Explain " ++ skill ++ lit " and where you'd use it.")
            (lit "High-level description and basic use cases of " ++ skill
             ++ lit ".")
            (Some skill)
  else if Str.eqb difficulty (lit "Hard") then
    QA.make (lit "Design a scalable solution that heavily uses " ++ skill
             ++ lit ". Explain trade-offs.")
            (lit "Describe architecture, bottlenecks and scaling strategies using "
             ++ skill ++ lit ".")
            (Some skill)
  else
    QA.make (lit "Describe a project where you used " ++ skill
             ++ lit ". What challenges did you solve?")
            ((lit "Talk about the project, your exact role, and results using ")
             ++ skill ++ lit ".")
            (Some skill).

(** [range(n)]: empty when [n] is not positive. *)
Definition range (n : Z) : list Z := map Z.of_nat (seq 0 (Z.to_nat n)).

Definition generate_interview_questions_offline (skills : list str)
  (max_per_skill : Z) (difficulty : str) : list QA.t :=
  match skills with
  | [] => FALLBACK_QUESTIONS
  | _ =>
      let qs :=
        fold_left
          (fun qs skill =>
             fold_left (fun qs (_ : Z) => qs ++ [question_for difficulty skill])
                       (range max_per_skill) qs)
          skills [] in
      qs ++ [CLOSING_QUESTION]
  end.

(** ** Skill detection ([detect_skills_simple]) *)

(** [[s for domain in DOMAIN_SKILL_MAP.values() for (s, _) in domain]] *)
Definition catalog_pool : list str :=
  flat_map (fun domain => map fst domain) (dict_values DOMAIN_SKILL_MAP).

Definition found_step (txt : str) (found : list str) (s : str)
  : list str :=
  if Str.str_in (Str.lower s) txt then found ++ [Str.title s] else found.

Definition dedupe_step (out : list str) (s : str) : list str :=
  if Str.mem s out then out else out ++ [s].

Definition detect_skills_simple (text : option str)
  (custom_skills : option (list str)) : list str :=
  if truthy text then
    let txt := Str.lower (text_or_empty text) in
    let pool := list_or_empty custom_skills ++ catalog_pool in
    let found := fold_left (found_step txt) pool [] in
    fold_left dedupe_step found []
  else [].

(** ** Text clean-up ([clean_text]) *)

Definition CR : char := 13%N.
Definition LF : char := 10%N.
Definition NBSP : char := 160%N.
Definition SPACE : char := 32%N.

Fixpoint newlines (n : nat) : str :=
  match n with
  | O => []
  | S n' => LF :: newlines n'
  end.

(** [re.sub(r'\n{3,}', '\n\n', txt)]: [run] counts the line feeds read since
    the last other character; a run of three or more is written as two. *)
Fixpoint collapse_from (run : nat) (s : str) : str :=
  match s with
  | [] => newlines (Nat.min run 2)
  | c :: s' =>
      if N.eqb c LF then collapse_from (S run) s'
      else (newlines (Nat.min run 2) ++ c :: collapse_from 0 s')
  end.

Definition collapse_newlines (s : str) : str := collapse_from 0 s.

Definition clean_text (text : option str) : str :=
  if truthy text then
    let txt := Str.replace_char CR LF (text_or_empty text) in
    let txt := collapse_newlines txt in
    let txt := Str.replace_char NBSP SPACE txt in
    Str.strip txt
  else [].

(** ** Improvement suggestions ([generate_improvements]) *)

Definition skill_highlighting_for (s : str) : str :=
  (lit "Show a short bullet linking a project to " ++ s
   ++ lit " and a measurable outcome.").

Definition GENERIC_SKILL_HIGHLIGHTING : str :=
  (lit "Use metrics (%, numbers, time saved) to quantify your skill impact.").

(** [out[key] = value] for a key that is not in [out] yet. *)
Definition dict_set {V : Type} (out : list (str * V)) (key : str)
  (value : V) : list (str * V) :=
  out ++ [(key, value)].

(** [out.get(key)] *)
Fixpoint dict_lookup {V : Type} (out : list (str * V)) (key : str)
  : option V :=
  match out with
  | [] => None
  | (k, v) :: out' => if Str.eqb key k then Some v else dict_lookup out' key
  end.

Definition is_nil {A : Type} (l : list A) : bool :=
  match l with [] => true | _ => false end.

(** The constants of the other areas hold three characters outside ASCII,
    written by their code points: the arrow U+2192, the dash U+2013 and the
    sign U+2264. *)
Definition generate_improvements (resume_text : option str)
  (selected_areas : option (list str)) (domain : option str)
  : list (str * list str) :=
  let out := [] in
  let text := text_or_empty resume_text in
  let req := if truthy domain then domain_required_skills (text_or_empty domain)
             else [] in
  let missing :=
    map skill
        (filter (fun k => negb (Str.str_in (Str.lower (skill k))
                                           (Str.lower text)))
                req) in
  let sel := map Str.strip (list_or_empty selected_areas) in
  let wanted area := (is_nil sel || Str.mem area sel)%bool in
  let out :=
    if wanted (lit "Skill Highlighting") then
      if negb (is_nil req)
      then dict_set out (lit "Skill Highlighting")
                    (map skill_highlighting_for (firstn 8 missing))
      else dict_set out (lit "Skill Highlighting") [GENERIC_SKILL_HIGHLIGHTING]
    else out in
  let out :=
    if wanted (lit "Experience Description") then
      dict_set out (lit "Experience Description")
        [ lit "Start bullets with action verbs (Designed, Implemented, Led).";
          (lit "Prefer 2-3 bullets per role showing problem " ++ [8594%N]
           ++ lit " action " ++ [8594%N] ++ lit " result with numbers.") ]
    else out in
  let out :=
    if wanted (lit "Projects") then
      dict_set out (lit "Projects")
        [ (lit "Add 2" ++ [8211%N]
           ++ lit "4 projects: title, tech stack, role, clear measurable result (e.g., improved X by Y%).");
          lit "Include links (GitHub) or short screenshots if available." ]
    else out in
  let out :=
    if wanted (lit "Overall structure") then
      dict_set out (lit "Overall structure")
        [ lit "Use reverse-chronological order, consistent date format and clear headings.";
          (lit "Keep resume " ++ [8804%N]
           ++ lit " 2 pages for mid/senior roles; 1 page for entry-level where possible.") ]
    else out in
  let out :=
    if wanted (lit "Certifications") then
      dict_set out (lit "Certifications")
        [ lit "Add relevant certifications (AWS/GCP, ML courses, Frontend certs) if you have them." ]
    else out in
  out.

(** ** Quick question and answer ([simple_qa_offline]) *)

Definition DOT : char := 46%N.

Definition PLEASE_UPLOAD : str := lit "Please upload a resume.".

Definition NOT_FOUND : str :=
  lit "Could not find a direct answer in the resume.".

(** [re.split] for a pattern that matches one character, those [sep] holds
    of: the pieces between the matches, the empty ones too. *)
Fixpoint split_where (sep : char -> bool) (s : str) : list str :=
  match s with
  | [] => [[]]
  | c :: s' =>
      if sep c then [] :: split_where sep s'
      else match split_where sep s' with
           | [] => [[c]]
           | p :: ps => (c :: p) :: ps
           end
  end.

(** [sep.join(l)] *)
Fixpoint join (sep : str) (l : list str) : str :=
  match l with
  | [] => []
  | x :: l' => match l' with
               | [] => x
               | _ => x ++ sep ++ join sep l'
               end
  end.

Section SimpleQA.

(** The characters [\w] matches: the letters, the digits and the underscore
    of the Unicode tables. *)
Variable is_word : char -> bool.

(** [re.findall(r'\w{4,}', s)]: the runs of word characters that are four
    or more long; [cur] is the run being read. *)
Definition emit_word (cur : str) : list str :=
  if (4 <=? List.length cur)%nat then [cur] else [].

Fixpoint words_from (cur : str) (s : str) : list str :=
  match s with
  | [] => emit_word cur
  | c :: s' =>
      if is_word c then words_from (cur ++ [c]) s'
      else emit_word cur ++ words_from [] s'
  end.

Definition findall_words4 (s : str) : list str := words_from [] s.

(** The test of the loop: [any(k in low for k in keywords)]. *)
Definition any_keyword_in (keywords : list str) (s : str) : bool :=
  existsb (fun k => Str.str_in k (Str.lower s)) keywords.

Definition qa_step (keywords : list str) (matches : list str) (s : str)
  : list str :=
  if any_keyword_in keywords s then matches ++ [s] else matches.

Definition qa_sentences (resume_text : str) : list str :=
  let txt := Str.replace_char LF SPACE resume_text in
  map Str.strip
      (filter (fun s => negb (Str.is_empty (Str.strip s)))
              (split_where (fun c => (N.eqb c DOT || N.eqb c LF)%bool) txt)).

Definition qa_keywords (question : str) : list str :=
  map Str.lower (findall_words4 question).

Definition simple_qa_offline (resume_text : option str) (question : str)
  : str :=
  if truthy resume_text then
    let sentences := qa_sentences (text_or_empty resume_text) in
    let keywords := qa_keywords question in
    let matches := fold_left (qa_step keywords) sentences [] in
    if negb (is_nil matches) then join [LF; LF] (firstn 6 matches)
    else NOT_FOUND
  else PLEASE_UPLOAD.

End SimpleQA.

(** ** Contact details ([find_emails], [find_phones], [parse_resume]) *)

(** [list(dict.fromkeys(l))]: the keys in the order they were first put
    in. *)
Definition dict_fromkeys_list (l : list str) : list str :=
  fold_left dedupe_step l [].

(** [re.sub(r"[^0-9+]", "", p)] *)
Definition digits_and_plus (c : char) : bool :=
  ((N.leb 48 c && N.leb c 57) || N.eqb c 43)%bool.

Definition only_digits_and_plus (p : str) : str := filter digits_and_plus p.

Module Parsed.
Record t : Type := make {
  text : option str;
  emails : list str;
  phones : list str;
  ats_score : Z;
  name : str
}.
End Parsed.

Section Contact.

(** [EMAIL_RE.findall] and [PHONE_RE.findall], the matches of the two
    patterns in a text from left to right. *)
Variable EMAIL_RE_findall : str -> list str.
Variable PHONE_RE_findall : str -> list str.

Definition find_emails (text : option str) : list str :=
  if truthy text
  then dict_fromkeys_list (EMAIL_RE_findall (text_or_empty text))
  else [].

Definition find_phones (text : option str) : list str :=
  if truthy text then
    let phones := PHONE_RE_findall (text_or_empty text) in
    let phones := map only_digits_and_plus phones in
    dict_fromkeys_list phones
  else [].

(** [parse_resume], on the text [extract_text_from_pdf] returned. *)
Definition parse_resume_text (txt : option str) : Parsed.t :=
  Parsed.make txt (find_emails txt) (find_phones txt) (ats_score txt)
              (match find_emails txt with
               | e :: _ => e
               | [] => []
               end).

End Contact.

(** ** What the page shows of a domain match ([ui.py]) *)

(** The wrappers of [agents.py] the page calls. *)
Definition detect_skills_for_ui (text : option str)
  (custom_skills : option (list str)) : list str :=
  detect_skills_simple text custom_skills.

Definition domain_match_for_ui (text : option str) (domain : str)
  : MatchResult :=
  compute_domain_match text domain.

(** [create_pie]: the sizes of the two wedges of the chart. *)
Definition pie_sizes (score : Z) : list Z := [score; 100 - score].

(** The message under the chart, by the call that shows it:
    [st.success] for a good fit, [st.info] for a partial fit and
    [st.error] for a low fit. *)
Inductive FitMessage : Type :=
| GoodFit
| PartialFit
| LowFit.

Definition fit_message (pct : Z) : FitMessage :=
  if 75 <=? pct then GoodFit
  else if 40 <=? pct then PartialFit
  else LowFit.

(** [c * n] for a character [c]: the empty string when [n] is not
    positive. *)
Definition str_times (c : char) (n : Z) : str := repeat c (Z.to_nat n).

(** U+2605 BLACK STAR and U+2606 WHITE STAR. *)
Definition BLACK_STAR : char := 9733%N.
Definition WHITE_STAR : char := 9734%N.

(** The stars in front of a missing skill. *)
Definition stars (m : Requirement) : str :=
  str_times BLACK_STAR (importance m)
  ++ str_times WHITE_STAR (5 - importance m).

(** The skills the interview questions are asked about:
    [[m['skill'] for m in res.get("matched", [])] or
    detect_skills_for_ui(txt)]. *)
Definition question_skills (res : MatchResult) (txt : option str)
  : list str :=
  match map skill (matched res) with
  | [] => detect_skills_for_ui txt None
  | names => names
  end.

(** * Vocabulary of the properties *)

(** ** What the specification words describe *)

(** Exact rounding of the rational [n / d] ([0 <= n], [0 < d]) to the
    nearest integer, for the two usual tie rules. *)
Definition round_half_even (n d : Z) : Z :=
  let q := n / d in
  let r := n mod d in
  if 2 * r <? d then q
  else if d <? 2 * r then q + 1
  else if Z.even q then q else q + 1.

Definition round_half_up (n d : Z) : Z :=
  let q := n / d in
  let r := n mod d in
  if 2 * r <? d then q else q + 1.


(** The Skill Highlighting suggestions as the component design words them:
    by whether a domain was supplied. *)
Definition skill_highlighting_by_domain (resume_text : option str)
  (domain : option str) : list str :=
  match domain with
  | Some d =>
      map skill_highlighting_for
          (firstn 8
             (map skill
                (filter (fun k => negb (skill_in
                                          (Str.lower (text_or_empty resume_text))
                                          k))
                        (domain_required_skills d))))
  | None => [GENERIC_SKILL_HIGHLIGHTING]
  end.

(** The elements of a list in the order they are first seen: each one is
    kept where it first occurs and dropped afterwards. *)
Fixpoint first_seen (l : list str) : list str :=
  match l with
  | [] => []
  | x :: l' => x :: filter (fun y => negb (Str.eqb y x)) (first_seen l')
  end.

(** The three tiers of difficulty, and the question and the sample answer
    the template of each tier writes for a skill. *)
Inductive Tier : Type :=
| Basic
| Medium
| Hard.

Definition template (tier : Tier) (skill : str) : QA.t :=
  match tier with
  | Basic =>
      QA.make (lit "Explain " ++ skill ++ lit " and where you'd use it.")
              (lit "High-level description and basic use cases of " ++ skill
               ++ lit ".")
              (Some skill)
  | Medium =>
      QA.make (lit "Describe a project where you used " ++ skill
               ++ lit ". What challenges did you solve?")
              (lit "Talk about the project, your exact role, and results using "
               ++ skill ++ lit ".")
              (Some skill)
  | Hard =>
      QA.make (lit "Design a scalable solution that heavily uses " ++ skill
               ++ lit ". Explain trade-offs.")
              (lit "Describe architecture, bottlenecks and scaling strategies using "
               ++ skill ++ lit ".")
              (Some skill)
  end.

(** The tier a difficulty selects: an unrecognized difficulty selects
    Medium. *)
Inductive selects : str -> Tier -> Prop :=
| selects_basic : selects (lit "Basic") Basic
| selects_hard : selects (lit "Hard") Hard
| selects_medium (difficulty : str) :
    difficulty <> lit "Basic" -> difficulty <> lit "Hard" ->
    selects difficulty Medium.

(** ** Predicates on results *)

(** [u] occurs in [t] as a contiguous substring. *)
Definition occurs (u t : str) : Prop := exists a b, t = a ++ u ++ b.


(** The order of a list sorted into descending keys. *)
Definition desc {A : Type} (key : A -> Z) (a b : A) : Prop := key b <= key a.

(** No character of [s] fails [P]. *)
Fixpoint all_chars (P : char -> bool) (s : str) : bool :=
  match s with
  | [] => true
  | c :: s' => P c && all_chars P s'
  end.

(** No three line feeds in a row, [run] line feeds having been read. *)
Fixpoint no_run3_from (run : nat) (s : str) : bool :=
  match s with
  | [] => true
  | c :: s' =>
      if N.eqb c LF then (run <? 2)%nat && no_run3_from (S run) s'
      else no_run3_from 0 s'
  end.

(** The characters [clean_text] leaves none of, and the form of its
    results. *)
Definition not_cr_nbsp (c : char) : bool :=
  (negb (N.eqb c CR) && negb (N.eqb c NBSP))%bool.

Definition cleaned (x : str) : Prop :=
  all_chars not_cr_nbsp x = true /\
  no_run3_from 0 x = true /\
  Str.strip x = x.

(** ** Finite tables, decided by computation *)

(** [P m t] holds for every [0 <= m <= t] with [1 <= t <= 50] as soon as it
    holds on the table of these pairs. *)
Definition weight_table (P : Z -> Z -> bool) : bool :=
  forallb (fun t => forallb (fun m => P (Z.of_nat m) (Z.of_nat t))
                            (seq 0 (S t)))
          (seq 1 50).


(** The checks that are run on the tables. *)
Definition percent_ok (m t : Z) : bool :=
  let p := percent m t in
  ((0 <=? p) && (p <=? 100) && (2 * Z.abs (100 * m - t * p) <=? t))%bool.

Definition percent_full_ok (m t : Z) : bool :=
  if m =? t then percent m t =? 100 else true.


(** ** Tactics *)

(** Solves a goal about a catalog domain by running it on each of them. *)
Ltac each_domain H :=
  simpl in H;
  repeat (destruct H as [H|H]; [subst; vm_compute; try tauto; try easy|]);
  try contradiction.

(** Decides a statement about a character by the cases of its tests,
    starting with the tests on the character itself. *)
Ltac plain_test a b :=
  lazymatch a with
  | context [if _ then _ else _] => fail
  | _ => lazymatch b with
         | context [if _ then _ else _] => fail
         | _ => idtac
         end
  end.

Ltac char_cases :=
  repeat (match goal with
          | |- context [N.leb ?a ?b] =>
              plain_test a b; destruct (N.leb_spec a b)
          | |- context [N.ltb ?a ?b] =>
              plain_test a b; destruct (N.ltb_spec a b)
          | |- context [N.eqb ?a ?b] =>
              plain_test a b; destruct (N.eqb_spec a b)
          end;
          cbn [andb orb negb implb]);
  try reflexivity; try (exfalso; lia); try lia.

(** The check that the percent does not go down when the matched weight
    goes up by one. *)
Definition percent_step_ok (m t : Z) : bool :=
  if m <? t then percent m t <=? percent (m + 1) t else true.

(** The areas [generate_improvements] knows, in the order it writes them. *)
Definition AREAS : list str :=
  [lit "Skill Highlighting"; lit "Experience Description"; lit "Projects";
   lit "Overall structure"; lit "Certifications"].

(** * Properties *)

(** ** Equality of strings *)

Lemma str_eqb_eq (s t : str) : Str.eqb s t = true <-> s = t.
Proof.
  revert t. induction s as [|a s IH]; intros [|b t]; cbn [Str.eqb];
    try (split; [discriminate | congruence]); [tauto|].
  rewrite andb_true_iff, N.eqb_eq, IH. split.
  - intros [-> ->]. reflexivity.
  - intros E. inversion E. tauto.
Qed.

Lemma str_eqb_refl (s : str) : Str.eqb s s = true.
Proof. now apply str_eqb_eq. Qed.

Lemma str_eqb_spec (s t : str) : reflect (s = t) (Str.eqb s t).
Proof. apply iff_reflect. symmetry. apply str_eqb_eq. Qed.

(** ** Catalog lookup *)

Lemma dict_get_not_key {V : Type} (d : list (str * list V)) (key : str) :
  ~ In key (dict_keys d) -> dict_get d key = [].
Proof.
  induction d as [|[k v] d IH]; simpl; intros H; [reflexivity|].
  destruct (str_eqb_spec key k) as [->|_].
  - exfalso. apply H. now left.
  - apply IH. intros Hin. apply H. now right.
Qed.

Lemma dict_get_cases {V : Type} (d : list (str * list V)) (key : str) :
  dict_get d key = [] \/ In (key, dict_get d key) d.
Proof.
  induction d as [|[k v] d IH]; simpl; [now left|].
  destruct (str_eqb_spec key k) as [->|_].
  - right. now left.
  - destruct IH as [IH|IH]; [now left | right; now right].
Qed.

(** C7: a domain name outside the catalog has no required skills, and the
    domain match on any text has empty matched and missing lists and a match
    percent of 0, the total weight being defaulted to 1. *)
Theorem unknown_domain_degrades (domain : str) (text : option str) :
  ~ In domain (dict_keys DOMAIN_SKILL_MAP) ->
  domain_required_skills domain = [] /\
  total_weight (domain_required_skills domain) = 1 /\
  compute_domain_match text domain = mkMatch [] [] 0.
Proof.
  intros H.
  assert (E : domain_required_skills domain = []).
  { unfold domain_required_skills. now rewrite (dict_get_not_key _ _ H). }
  split; [exact E|]. split.
  - now rewrite E.
  - unfold compute_domain_match. rewrite E. reflexivity.
Qed.

Lemma unknown_domain_degrades_witness :
  domain_required_skills (lit "Astronaut") = [] /\
  total_weight (domain_required_skills (lit "Astronaut")) = 1 /\
  compute_domain_match (Some (lit "python sql")) (lit "Astronaut")
  = mkMatch [] [] 0.
Proof.
  apply (unknown_domain_degrades (lit "Astronaut") (Some (lit "python sql"))).
  vm_compute. intuition discriminate.
Defined.

(** ** Sums and the matching loop *)

Lemma fold_add_shift (l : list Z) (a : Z) :
  fold_left Z.add l a = a + fold_left Z.add l 0.
Proof.
  revert a. induction l as [|x l IH]; intros a; simpl; [lia|].
  rewrite (IH (a + x)), (IH x). lia.
Qed.

Lemma sum_cons (x : Z) (l : list Z) : sum (x :: l) = x + sum l.
Proof. unfold sum. simpl. now rewrite fold_add_shift. Qed.

Lemma sum_nil : sum [] = 0.
Proof. reflexivity. Qed.

Arguments sum : simpl never.

Lemma sum_app (l1 l2 : list Z) : sum (l1 ++ l2) = sum l1 + sum l2.
Proof.
  induction l1 as [|x l1 IH]; cbn [app].
  - change (sum []) with 0. lia.
  - rewrite !sum_cons, IH. lia.
Qed.

Lemma sum_filter_split {A : Type} (w : A -> Z) (p : A -> bool) (l : list A) :
  sum (map w (filter p l)) + sum (map w (filter (fun x => negb (p x)) l))
  = sum (map w l).
Proof.
  induction l as [|x l IH]; simpl; [reflexivity|].
  destruct (p x); simpl; rewrite !sum_cons; lia.
Qed.

Lemma sum_bounds (l : list Z) (lo hi : Z) :
  Forall (fun x => lo <= x <= hi) l ->
  lo * Z.of_nat (List.length l) <= sum l <= hi * Z.of_nat (List.length l).
Proof.
  induction 1 as [|x l Hx _ IH].
  - change (sum []) with 0. simpl. lia.
  - rewrite sum_cons. cbn [List.length]. lia.
Qed.

Lemma match_loop_from (txt : str) (req m mm : list Requirement) (w : Z) :
  fold_left (match_step txt) req (m, mm, w)
  = (m ++ filter (skill_in txt) req,
     mm ++ filter (fun k => negb (skill_in txt k)) req,
     w + sum (map importance (filter (skill_in txt) req))).
Proof.
  revert m mm w. induction req as [|k req IH]; intros m mm w; simpl.
  - rewrite !app_nil_r. change (sum []) with 0. f_equal. lia.
  - destruct (skill_in txt k) eqn:E; simpl; rewrite IH, <- app_assoc; simpl.
    + rewrite sum_cons. f_equal. lia.
    + reflexivity.
Qed.

Lemma match_loop_eq (txt : str) (req : list Requirement) :
  match_loop txt req
  = (filter (skill_in txt) req,
     filter (fun k => negb (skill_in txt k)) req,
     sum (map importance (filter (skill_in txt) req))).
Proof. unfold match_loop. now rewrite match_loop_from. Qed.

(** The result of [compute_domain_match] in closed form. *)
Lemma compute_domain_match_eq (text : option str) (domain : str) :
  let req := domain_required_skills domain in
  let txt := match_text text in
  compute_domain_match text domain
  = mkMatch
      (map (fun k => set_score (Z.min 10 (importance k * 2)) k)
           (filter (skill_in txt) req))
      (map (set_score 0) (filter (fun k => negb (skill_in txt k)) req))
      (percent (sum (map importance (filter (skill_in txt) req)))
               (total_weight req)).
Proof.
  cbv zeta. unfold compute_domain_match. now rewrite match_loop_eq.
Qed.

(** ** The catalog domains, one by one *)

Lemma required_skills_cases (domain : str) :
  domain_required_skills domain = [] \/
  In domain (dict_keys DOMAIN_SKILL_MAP).
Proof.
  unfold domain_required_skills.
  destruct (dict_get_cases DOMAIN_SKILL_MAP domain) as [E|Hin].
  - left. now rewrite E.
  - right. apply (in_map fst) in Hin. exact Hin.
Qed.

Lemma required_weights (domain : str) :
  Forall (fun k => 1 <= importance k <= 5) (domain_required_skills domain) /\
  (List.length (domain_required_skills domain) <= 10)%nat.
Proof.
  destruct (required_skills_cases domain) as [E|Hin].
  - rewrite E. split; [constructor | simpl; lia].
  - each_domain Hin; (split; [repeat constructor; discriminate | lia]).
Qed.

(** ** C2: matched and missing partition the requirement list *)

Lemma map_skill_scored (f : Requirement -> Z) (l : list Requirement) :
  map skill (map (fun k => set_score (f k) k) l) = map skill l.
Proof. rewrite map_map. now apply map_ext. Qed.

Lemma map_importance_scored (f : Requirement -> Z) (l : list Requirement) :
  map importance (map (fun k => set_score (f k) k) l) = map importance l.
Proof. rewrite map_map. now apply map_ext. Qed.

Lemma in_names_filter (p : str -> bool) (l : list Requirement) (n : str) :
  In n (map skill (filter (fun k => p (skill k)) l)) <->
  In n (map skill l) /\ p n = true.
Proof.
  rewrite !in_map_iff. split.
  - intros [k [<- Hk]]. apply filter_In in Hk. destruct Hk as [Hk Hp].
    split; [now exists k | exact Hp].
  - intros [[k [<- Hk]] Hp]. exists k. split; [reflexivity|].
    apply filter_In. now split.
Qed.

Lemma total_weight_cases (domain : str) :
  total_weight (domain_required_skills domain)
  = match domain_required_skills domain with
    | [] => 1
    | req => sum (map importance req)
    end.
Proof.
  destruct (required_skills_cases domain) as [E|Hin].
  - now rewrite E.
  - each_domain Hin.
Qed.

(** C2, as the code has it: the weights of matched and missing add up to the
    weight of the domain's requirement list, which is the total weight
    whenever the list is not empty (for a name outside the catalog the total
    weight is defaulted to 1); the matched and the missing names are
    disjoint and together are the required names; a matched requirement has
    score [min(10, importance*2)] and a missing one has score 0. *)
Theorem domain_match_partition (text : option str) (domain : str) :
  let req := domain_required_skills domain in
  let r := compute_domain_match text domain in
  sum (map importance (matched r)) + sum (map importance (missing r))
    = sum (map importance req) /\
  total_weight req
    = match req with [] => 1 | _ => sum (map importance req) end /\
  (forall n,
     ~ (In n (map skill (matched r)) /\ In n (map skill (missing r)))) /\
  (forall n, In n (map skill (matched r)) \/ In n (map skill (missing r))
             <-> In n (map skill req)) /\
  Forall (fun k => score k = Some (Z.min 10 (importance k * 2))) (matched r) /\
  Forall (fun k => score k = Some 0) (missing r).
Proof.
  cbv zeta. rewrite compute_domain_match_eq. cbn [matched missing].
  set (req := domain_required_skills domain).
  set (txt := match_text text).
  rewrite (map_importance_scored (fun k => Z.min 10 (importance k * 2))).
  rewrite (map_importance_scored (fun _ => 0)).
  rewrite (map_skill_scored (fun k => Z.min 10 (importance k * 2))).
  rewrite (map_skill_scored (fun _ => 0)).
  pose (p := fun n : str => Str.str_in (Str.lower n) txt).
  change (skill_in txt) with (fun k => p (skill k)).
  change (fun k => negb (skill_in txt k))
    with (fun k => (fun n => negb (p n)) (skill k)).
  split; [|split; [|split; [|split; [|split]]]].
  - apply (sum_filter_split importance (fun k => p (skill k))).
  - subst req. rewrite total_weight_cases.
    now destruct (domain_required_skills domain).
  - intros n [H1 H2].
    apply (in_names_filter p) in H1.
    apply (in_names_filter (fun n => negb (p n))) in H2.
    destruct H1 as [_ H1], H2 as [_ H2]. rewrite H1 in H2. discriminate.
  - intros n.
    rewrite (in_names_filter p), (in_names_filter (fun n => negb (p n))).
    destruct (p n); simpl; intuition congruence.
  - apply Forall_forall. intros k Hk. apply in_map_iff in Hk.
    destruct Hk as [k0 [<- _]]. reflexivity.
  - apply Forall_forall. intros k Hk. apply in_map_iff in Hk.
    destruct Hk as [k0 [<- _]]. reflexivity.
Qed.

(** C2 as stated fails for a name outside the catalog: both sums are 0 and
    the total weight is the default 1. *)
Lemma weights_do_not_add_up_to_default :
  sum (map importance
         (matched (compute_domain_match (Some (lit "python"))
                                        (lit "Astronaut"))))
  + sum (map importance
           (missing (compute_domain_match (Some (lit "python"))
                                          (lit "Astronaut"))))
  <> total_weight (domain_required_skills (lit "Astronaut")).
Proof. vm_compute. discriminate. Qed.

(** ** Substrings *)

Lemma prefix_append (s b : str) : Str.prefix s (s ++ b) = true.
Proof.
  induction s as [|c s IH]; cbn [Str.prefix app]; [reflexivity|].
  now rewrite N.eqb_refl.
Qed.

Lemma str_in_prefix (u t : str) :
  Str.prefix u t = true -> Str.str_in u t = true.
Proof. intros H. destruct t; cbn [Str.str_in]; now rewrite H. Qed.

Lemma str_in_cons (u t : str) (c : char) :
  Str.str_in u t = true -> Str.str_in u (c :: t) = true.
Proof.
  intros H. cbn [Str.str_in]. now destruct (Str.prefix u (c :: t)).
Qed.

Lemma str_in_middle (a s b : str) :
  Str.str_in s (a ++ s ++ b) = true.
Proof.
  induction a as [|c a IH]; cbn [app].
  - apply str_in_prefix, prefix_append.
  - now apply str_in_cons.
Qed.

Lemma prefix_split (u t : str) :
  Str.prefix u t = true -> exists b, t = u ++ b.
Proof.
  revert t. induction u as [|a u IH]; intros t H; [now exists t|].
  destruct t as [|c t]; [discriminate H|]. cbn [Str.prefix] in H.
  apply andb_prop in H. destruct H as [E H]. apply N.eqb_eq in E. subst c.
  destruct (IH t H) as [b ->]. now exists b.
Qed.

(** The operator [in] of the code finds the substrings, and nothing
    else. *)
Lemma str_in_occurs (u t : str) : Str.str_in u t = true <-> occurs u t.
Proof.
  split.
  - induction t as [|c t IH]; cbn [Str.str_in].
    + destruct (Str.prefix u []) eqn:E; [|discriminate].
      intros _. destruct (prefix_split _ _ E) as [b Eb]. now exists [], b.
    + destruct (Str.prefix u (c :: t)) eqn:E.
      * intros _. destruct (prefix_split _ _ E) as [b Eb]. now exists [], b.
      * intros H. destruct (IH H) as [a [b ->]]. now exists (c :: a), b.
  - intros [a [b ->]]. apply str_in_middle.
Qed.

Lemma lower_app (s t : str) :
  Str.lower (s ++ t) = Str.lower s ++ Str.lower t.
Proof. apply flat_map_app. Qed.

(** A substring stays a substring when both strings are lower-cased. *)
Lemma str_in_lower (u t : str) :
  Str.str_in u t = true -> Str.str_in (Str.lower u) (Str.lower t) = true.
Proof.
  intros H. apply str_in_occurs in H. destruct H as [a [b ->]].
  rewrite !lower_app. apply str_in_middle.
Qed.

(** ** C1: the match percent *)

Lemma weight_table_sound (P : Z -> Z -> bool) (m t : Z) :
  weight_table P = true -> 0 <= m <= t -> 1 <= t <= 50 -> P m t = true.
Proof.
  unfold weight_table. intros H Hm Ht.
  rewrite forallb_forall in H.
  specialize (H (Z.to_nat t)). rewrite forallb_forall in H.
  rewrite <- (Z2Nat.id m), <- (Z2Nat.id t) by lia.
  apply H; apply in_seq; lia.
Qed.

(** The match percent is a nearest integer to [100 * m / t], between 0 and
    100, for every weight the catalog allows. *)
Lemma percent_table : weight_table percent_ok = true.
Proof. vm_compute. reflexivity. Qed.

Lemma percent_nearest (m t : Z) :
  0 <= m <= t -> 1 <= t <= 50 ->
  0 <= percent m t <= 100 /\ 2 * Z.abs (100 * m - t * percent m t) <= t.
Proof.
  intros Hm Ht.
  pose proof (weight_table_sound percent_ok m t percent_table Hm Ht) as H.
  unfold percent_ok in H. cbv zeta in H.
  apply andb_prop in H. destruct H as [H H3].
  apply andb_prop in H. destruct H as [H1 H2]. lia.
Qed.

Lemma matched_weight_bounds (txt : str) (domain : str) :
  let req := domain_required_skills domain in
  0 <= sum (map importance (filter (skill_in txt) req))
    <= sum (map importance req) /\
  sum (map importance req) <= 50.
Proof.
  cbv zeta. destruct (required_weights domain) as [Hw Hlen].
  set (req := domain_required_skills domain) in *.
  pose proof (sum_filter_split importance (skill_in txt) req) as Hs.
  assert (Hf : forall p, Forall (fun x => 1 <= x <= 5)
                                (map importance (filter p req))).
  { intros p. apply Forall_forall. intros x Hx. apply in_map_iff in Hx.
    destruct Hx as [k [<- Hk]]. apply filter_In in Hk.
    rewrite Forall_forall in Hw. apply Hw. tauto. }
  pose proof (sum_bounds _ 1 5 (Hf (skill_in txt))) as B1.
  pose proof (sum_bounds _ 1 5 (Hf (fun k => negb (skill_in txt k)))) as B2.
  assert (Ha : Forall (fun x => 1 <= x <= 5) (map importance req)).
  { apply Forall_forall. intros x Hx. apply in_map_iff in Hx.
    destruct Hx as [k [<- Hk]]. rewrite Forall_forall in Hw. now apply Hw. }
  pose proof (sum_bounds _ 1 5 Ha) as B3.
  rewrite length_map in B3. lia.
Qed.

(** The match percent is always between 0 and 100. *)
Lemma match_percent_range (text : option str) (domain : str) :
  0 <= match_percent (compute_domain_match text domain) <= 100.
Proof.
  rewrite compute_domain_match_eq. cbn [match_percent].
  destruct (matched_weight_bounds (match_text text) domain) as [Hm Ht].
  set (req := domain_required_skills domain) in *.
  assert (Hc : total_weight req = 1 /\ sum (map importance req) = 0
               \/ total_weight req = sum (map importance req)
                  /\ 1 <= sum (map importance req)).
  { unfold total_weight, or_1.
    destruct (Z.eqb_spec (sum (map importance req)) 0); lia. }
  apply percent_nearest; lia.
Qed.

Lemma match_text_lower (text : option str) :
  match_text text = Str.lower (text_or_empty text).
Proof. now destruct text as [[|c s]|]. Qed.

Lemma filter_all {A : Type} (p : A -> bool) (l : list A) :
  (forall x, In x l -> p x = true) -> filter p l = l.
Proof.
  induction l as [|x l IH]; simpl; intros H; [reflexivity|].
  rewrite (H x) by now left. f_equal. apply IH. intros y Hy. apply H. now right.
Qed.

Lemma percent_full_table : weight_table percent_full_ok = true.
Proof. vm_compute. reflexivity. Qed.

Lemma percent_full (t : Z) : 1 <= t <= 50 -> percent t t = 100.
Proof.
  intros Ht.
  pose proof (weight_table_sound percent_full_ok t t percent_full_table) as H.
  unfold percent_full_ok in H. rewrite Z.eqb_refl in H.
  apply Z.eqb_eq. apply H; lia.
Qed.

(** A text that contains every required skill of a catalog domain verbatim
    has a match percent of 100. *)
Lemma match_percent_full (text : option str) (domain : str) :
  In domain (dict_keys DOMAIN_SKILL_MAP) ->
  (forall k, In k (domain_required_skills domain) ->
             Str.str_in (skill k) (text_or_empty text) = true) ->
  match_percent (compute_domain_match text domain) = 100.
Proof.
  intros Hd Hall. rewrite compute_domain_match_eq. cbn [match_percent].
  rewrite filter_all.
  - destruct (matched_weight_bounds [] domain) as [_ Hs].
    assert (Ht : total_weight (domain_required_skills domain)
                 = sum (map importance (domain_required_skills domain))
                 /\ 1 <= sum (map importance (domain_required_skills domain))).
    { clear Hall Hs. each_domain Hd; (split; [reflexivity | discriminate]). }
    destruct Ht as [-> Ht]. apply percent_full. lia.
  - intros k Hk. unfold skill_in. rewrite match_text_lower.
    apply str_in_lower. now apply Hall.
Qed.

(** An empty or missing text has a match percent of 0. *)
Lemma match_percent_empty (domain : str) :
  match_percent (compute_domain_match None domain) = 0 /\
  match_percent (compute_domain_match (Some []) domain) = 0.
Proof.
  destruct (required_skills_cases domain) as [E|Hin].
  - unfold compute_domain_match. rewrite E. split; reflexivity.
  - each_domain Hin.
Qed.

(** C1, at the input where the code and the claim part: for a resume that
    has exactly the five skills Aws, Azure, Gcp, Docker and Kubernetes of
    the Cloud Engineer domain, the matched weight is 23 of 40, that is 57.5
    percent, which both tie rules round to 58; the code answers 57, because
    [(23 / 40) * 100] is [57.49999999999999] in binary64.  At the other
    ties of this domain (7.5 and 12.5) it rounds to the even neighbour. *)
Theorem cloud_engineer_tie_rounds_to_57 :
  let text := Some (lit "aws azure gcp docker kubernetes") in
  let r := compute_domain_match text (lit "Cloud Engineer") in
  map skill (matched r)
  = [lit "Aws"; lit "Azure"; lit "Gcp"; lit "Docker"; lit "Kubernetes"] /\
  sum (map importance (matched r)) = 23 /\
  total_weight (domain_required_skills (lit "Cloud Engineer")) = 40 /\
  match_percent r = 57 /\
  round_half_even (100 * 23) 40 = 58 /\
  round_half_up (100 * 23) 40 = 58 /\
  match_percent (compute_domain_match (Some (lit "serverless"))
                                      (lit "Cloud Engineer")) = 8 /\
  match_percent (compute_domain_match (Some (lit "aws"))
                                      (lit "Cloud Engineer")) = 12.
Proof. vm_compute. repeat split; reflexivity. Qed.

(** ** C4: the ATS keyword score *)

Lemma ats_loop_from (tl : str) (words : list str) (score : Z) :
  fold_left (ats_step tl) words score
  = score + 7 * Z.of_nat (List.length (filter (keyword_in tl) words)).
Proof.
  revert score. induction words as [|w words IH]; intros score;
    cbn [fold_left filter].
  - simpl. lia.
  - rewrite IH. unfold ats_step.
    destruct (keyword_in tl w); cbn [List.length]; lia.
Qed.

Lemma ats_score_closed_form (text : option str) :
  ats_score text
  = Z.min 100 (7 * Z.of_nat (List.length
                 (filter (keyword_in (Str.lower (text_or_empty text)))
                         ATS_KEYWORDS))).
Proof.
  destruct text as [[|c s]|]; try reflexivity.
  unfold ats_score. cbn [truthy text_or_empty Str.is_empty negb].
  now rewrite ats_loop_from.
Qed.


Lemma ats_score_empty : ats_score None = 0 /\ ats_score (Some []) = 0.
Proof. split; reflexivity. Qed.

Lemma filter_positions {A : Type} (p : A -> bool) (d : A) (l : list A) :
  List.length (filter p l)
  = List.length (filter (fun i => p (nth i l d)) (seq 0 (List.length l))).
Proof.
  induction l as [|x l IH] using rev_ind; [reflexivity|].
  rewrite length_app. cbn [List.length]. rewrite Nat.add_1_r, seq_S.
  rewrite !filter_app, !length_app. cbn [Nat.add]. f_equal.
  - rewrite IH. f_equal. apply filter_ext_in. intros i Hi.
    apply in_seq in Hi. now rewrite app_nth1 by lia.
  - cbn [filter]. rewrite nth_middle. now destruct (p x).
Qed.

(** What the code counts: the score is 7 points for each position of the
    keyword list whose entry, lower-cased, occurs in the lower-cased text,
    capped at 100.  The list has 20 entries and a keyword that is listed
    twice is counted at both of its positions. *)
Lemma ats_score_counts_entries (text : option str) :
  exists hits : list nat,
    NoDup hits /\
    (forall i, In i hits <->
               exists kw, nth_error ATS_KEYWORDS i = Some kw /\
                          occurs (Str.lower kw)
                                 (Str.lower (text_or_empty text))) /\
    ats_score text = Z.min 100 (7 * Z.of_nat (List.length hits)).
Proof.
  set (tl := Str.lower (text_or_empty text)).
  exists (filter (fun i => keyword_in tl (nth i ATS_KEYWORDS []))
                 (seq 0 (List.length ATS_KEYWORDS))).
  split; [apply NoDup_filter, seq_NoDup|]. split.
  - intros i. rewrite filter_In, in_seq. unfold keyword_in.
    rewrite str_in_occurs. split.
    + intros [Hi Ho]. exists (nth i ATS_KEYWORDS []). split; [|exact Ho].
      apply nth_error_nth'. lia.
    + intros [kw [Hn Ho]]. split.
      * assert (Hl : (i < List.length ATS_KEYWORDS)%nat)
          by (apply nth_error_Some; congruence).
        lia.
      * now rewrite (nth_error_nth _ _ _ Hn).
  - rewrite ats_score_closed_form. fold tl.
    now rewrite (filter_positions (keyword_in tl) []).
Qed.

(** C4, at the input where the code and the claim part: in the text "sql"
    one keyword of the list occurs, "sql", which is worth 7 points; the
    code answers 14, because the list holds "sql" twice, at positions 4
    and 16, and the loop adds 7 for each position. *)
Theorem sql_is_counted_twice :
  ats_score (Some (lit "sql")) = 14 /\
  (forall kw, In kw ATS_KEYWORDS ->
              occurs (Str.lower kw) (Str.lower (lit "sql")) ->
              kw = lit "sql") /\
  occurs (Str.lower (lit "sql")) (Str.lower (lit "sql")) /\
  nth_error ATS_KEYWORDS 4 = Some (lit "sql") /\
  nth_error ATS_KEYWORDS 16 = Some (lit "sql").
Proof.
  split; [reflexivity|]. split; [|split; [|split; reflexivity]].
  - intros kw Hin Ho. apply str_in_occurs in Ho.
    vm_compute in Hin.
    repeat (destruct Hin as [<-|Hin];
            [first [reflexivity | vm_compute in Ho; discriminate Ho]|]).
    contradiction.
  - now exists [], [].
Qed.

(** ** The batch: the records and their order *)

Lemma append_loop_eq {A B : Type} (f : A -> B) (l : list A) (acc : list B) :
  fold_left (fun out x => out ++ [f x]) l acc = acc ++ map f l.
Proof.
  revert acc. induction l as [|x l IH]; intros acc; simpl.
  - now rewrite app_nil_r.
  - rewrite IH, <- app_assoc. reflexivity.
Qed.

Section SortedReverse.

Context {A : Type} (key : A -> Z).

Lemma insert_desc_perm (x : A) (l : list A) :
  Permutation (x :: l) (insert_desc key x l).
Proof.
  induction l as [|y l IH]; simpl; [reflexivity|].
  destruct (key x <? key y); [|reflexivity].
  rewrite perm_swap. now constructor.
Qed.

Lemma sorted_reverse_perm (l : list A) : Permutation l (sorted_reverse key l).
Proof.
  induction l as [|x l IH]; simpl; [constructor|].
  rewrite <- insert_desc_perm. now constructor.
Qed.

Lemma insert_desc_hd (a x : A) (l : list A) :
  desc key a x -> HdRel (desc key) a l ->
  HdRel (desc key) a (insert_desc key x l).
Proof.
  intros Hax Hal. destruct l as [|y l]; simpl; [now constructor|].
  destruct (key x <? key y); constructor; [now inversion Hal | exact Hax].
Qed.

Lemma insert_desc_sorted (x : A) (l : list A) :
  Sorted (desc key) l -> Sorted (desc key) (insert_desc key x l).
Proof.
  induction 1 as [|y l Hs IH Hhd]; simpl; [repeat constructor|].
  destruct (Z.ltb_spec (key x) (key y)) as [Hlt|Hge].
  - constructor; [exact IH|].
    apply insert_desc_hd; [unfold desc; lia | exact Hhd].
  - constructor; [now constructor|]. constructor. unfold desc. lia.
Qed.

Lemma sorted_reverse_sorted (l : list A) :
  Sorted (desc key) (sorted_reverse key l).
Proof.
  induction l as [|x l IH]; simpl; [constructor|].
  now apply insert_desc_sorted.
Qed.

Lemma desc_trans : Relations_1.Transitive (desc key).
Proof. intros a b c. unfold desc. lia. Qed.

(** Insertion does not move an element past one with the same key. *)
Lemma insert_desc_filter (v : Z) (x : A) (l : list A) :
  filter (fun r => key r =? v) (insert_desc key x l)
  = filter (fun r => key r =? v) (x :: l).
Proof.
  induction l as [|y l IH]; [reflexivity|].
  cbn [insert_desc]. destruct (Z.ltb_spec (key x) (key y)) as [Hlt|_];
    [|reflexivity].
  cbn [filter] in *. rewrite IH.
  destruct (Z.eqb_spec (key y) v), (Z.eqb_spec (key x) v); try reflexivity.
  lia.
Qed.

Lemma sorted_reverse_stable (v : Z) (l : list A) :
  filter (fun r => key r =? v) (sorted_reverse key l)
  = filter (fun r => key r =? v) l.
Proof.
  induction l as [|x l IH]; [reflexivity|].
  cbn [sorted_reverse fold_right]. rewrite insert_desc_filter.
  cbn [filter]. fold (sorted_reverse key l). now rewrite IH.
Qed.

End SortedReverse.

Lemma batch_eq {FileObj : Type} (extract : FileObj -> Extraction)
  (resume_files : list (Entry FileObj)) (domain : str) :
  batch_resume_analysis extract resume_files domain
  = sorted_reverse Rec.combined_score
                   (map (analyse extract domain) resume_files).
Proof. unfold batch_resume_analysis. now rewrite append_loop_eq. Qed.

(** C5: the batch result is in descending order of combined score, it is
    a rearrangement of the records of the entries, and the records with the
    same combined score are in the order of their entries. *)
Theorem batch_sorted_and_stable {FileObj : Type}
  (extract : FileObj -> Extraction) (resume_files : list (Entry FileObj))
  (domain : str) :
  let out := batch_resume_analysis extract resume_files domain in
  let records := map (analyse extract domain) resume_files in
  StronglySorted
    (fun a b => Rec.combined_score b <= Rec.combined_score a) out /\
  Permutation records out /\
  forall v, filter (fun r => Rec.combined_score r =? v) out
            = filter (fun r => Rec.combined_score r =? v) records.
Proof.
  cbv zeta. rewrite batch_eq. split; [|split].
  - apply Sorted_StronglySorted; [apply desc_trans|].
    apply sorted_reverse_sorted.
  - apply sorted_reverse_perm.
  - intros v. apply sorted_reverse_stable.
Qed.

(** The example of the ranking: A with combined score 68 comes after B with
    combined score 72. *)
Example rank_B_before_A :
  combine 80 50 = 68 /\ combine 60 90 = 72 /\
  sorted_reverse Rec.combined_score
    [Rec.make (lit "A") 80 50 (combine 80 50);
     Rec.make (lit "B") 60 90 (combine 60 90)]
  = [Rec.make (lit "B") 60 90 72; Rec.make (lit "A") 80 50 68].
Proof. vm_compute. repeat split; reflexivity. Qed.

(** ** C3: the combined score *)






(** ** C6: the interview questions *)

Lemma inner_loop_eq {A : Type} (x : QA.t) (l : list A) (qs : list QA.t) :
  fold_left (fun qs (_ : A) => qs ++ [x]) l qs = qs ++ repeat x (List.length l).
Proof.
  revert qs. induction l as [|y l IH]; intros qs; simpl.
  - now rewrite app_nil_r.
  - rewrite IH, <- app_assoc. reflexivity.
Qed.

Lemma range_length (n : Z) : List.length (range n) = Z.to_nat n.
Proof. unfold range. now rewrite length_map, length_seq. Qed.

Lemma outer_loop_eq (difficulty : str) (n : Z) (skills : list str)
  (qs : list QA.t) :
  fold_left
    (fun qs skill =>
       fold_left (fun qs (_ : Z) => qs ++ [question_for difficulty skill])
                 (range n) qs)
    skills qs
  = qs ++ flat_map (fun skill => repeat (question_for difficulty skill)
                                        (Z.to_nat n)) skills.
Proof.
  revert qs. induction skills as [|s skills IH]; intros qs; simpl.
  - now rewrite app_nil_r.
  - rewrite IH, inner_loop_eq, range_length, <- app_assoc. reflexivity.
Qed.

Lemma question_for_template (difficulty skill : str) (tier : Tier) :
  selects difficulty tier -> question_for difficulty skill = template tier skill.
Proof.
  intros H. unfold question_for. destruct H as [| |d Hb Hh].
  - reflexivity.
  - reflexivity.
  - destruct (str_eqb_spec d (lit "Basic")) as [E|_]; [contradiction|].
    destruct (str_eqb_spec d (lit "Hard")) as [E|_]; [contradiction|].
    reflexivity.
Qed.

Lemma selects_total (difficulty : str) : exists tier, selects difficulty tier.
Proof.
  destruct (str_eqb_spec difficulty (lit "Basic")) as [->|Hb];
    [exists Basic; constructor|].
  destruct (str_eqb_spec difficulty (lit "Hard")) as [->|Hh];
    [exists Hard; constructor|].
  exists Medium. now constructor.
Qed.

Lemma selects_one (difficulty : str) (tier tier' : Tier) :
  selects difficulty tier -> selects difficulty tier' -> tier = tier'.
Proof.
  intros H H'. destruct H; inversion H'; subst;
    try reflexivity; try discriminate; contradiction.
Qed.

Lemma templates_differ (skill : str) :
  template Basic skill <> template Medium skill /\
  template Basic skill <> template Hard skill /\
  template Medium skill <> template Hard skill.
Proof.
  repeat split; intros H;
    apply (f_equal (fun qa => firstn 4 (QA.q qa))) in H;
    vm_compute in H; discriminate H.
Qed.

(** C6: an empty skills list gives the two fallback questions whatever the
    other arguments.  Otherwise the result is, for each skill in input
    order, [max_per_skill] copies (none when it is not positive) of the
    question of the tier the difficulty selects, followed by the closing
    question.  "Basic" selects the Basic template, "Hard" the Hard one and
    anything else the Medium one; the three templates are different for
    every skill, and each names the skill in its question and in its
    answer.  For ["Python"], 2 and "Hard" that is 3 items: the Hard
    question about Python twice, then the closing question. *)
Theorem generate_questions_shape (skills : list str) (max_per_skill : Z)
  (difficulty : str) :
  generate_interview_questions_offline [] max_per_skill difficulty
    = [ QA.make (lit "Tell me about yourself.")
                (lit "Short summary focusing on relevant experience.") None;
        QA.make (lit "Why this role?") (lit "Explain motivation and fit.")
                None ] /\
  (exists tier,
     selects difficulty tier /\
     (forall tier', selects difficulty tier' -> tier' = tier) /\
     match skills with
     | [] => True
     | _ =>
         generate_interview_questions_offline skills max_per_skill difficulty
         = flat_map (fun skill => repeat (template tier skill)
                                         (Z.to_nat max_per_skill)) skills
           ++ [ QA.make (lit "Describe a challenge and how you solved it.")
                        (lit "Context, action, result.") None ]
     end) /\
  (forall skill,
     template Basic skill <> template Medium skill /\
     template Basic skill <> template Hard skill /\
     template Medium skill <> template Hard skill) /\
  (forall tier skill,
     QA.skill (template tier skill) = Some skill /\
     occurs skill (QA.q (template tier skill)) /\
     occurs skill (QA.a (template tier skill))) /\
  generate_interview_questions_offline [lit "Python"] 2 (lit "Hard")
    = [ QA.make
          (lit "Design a scalable solution that heavily uses Python. Explain trade-offs.")
          (lit "Describe architecture, bottlenecks and scaling strategies using Python.")
          (Some (lit "Python"));
        QA.make
          (lit "Design a scalable solution that heavily uses Python. Explain trade-offs.")
          (lit "Describe architecture, bottlenecks and scaling strategies using Python.")
          (Some (lit "Python"));
        QA.make (lit "Describe a challenge and how you solved it.")
                (lit "Context, action, result.") None ].
Proof.
  split; [reflexivity|]. split; [|split; [|split]].
  - destruct (selects_total difficulty) as [tier Ht]. exists tier.
    split; [exact Ht|]. split.
    + intros tier' Ht'. exact (selects_one _ _ _ Ht' Ht).
    + destruct skills as [|s skills]; [exact I|].
      unfold generate_interview_questions_offline.
      rewrite outer_loop_eq. cbn [app]. f_equal.
      apply flat_map_ext. intros skill.
      now rewrite (question_for_template difficulty skill tier Ht).
  - apply templates_differ.
  - intros tier skill. destruct tier; cbn [template QA.skill QA.q QA.a];
      (split; [reflexivity|]); split.
    + now exists (lit "Explain "), (lit " and where you'd use it.").
    + now exists (lit "High-level description and basic use cases of "),
        (lit ".").
    + now exists (lit "Describe a project where you used "),
        (lit ". What challenges did you solve?").
    + now exists
        (lit "Talk about the project, your exact role, and results using "),
        (lit ".").
    + now exists (lit "Design a scalable solution that heavily uses "),
        (lit ". Explain trade-offs.").
    + now exists
        (lit "Describe architecture, bottlenecks and scaling strategies using "),
        (lit ".").
  - vm_compute. reflexivity.
Qed.

(** ** Case mapping *)

Ltac unfold_case :=
  unfold Str.is_cased, Str.lower_char, Str.lower_ascii, Str.title_char,
    Str.is_ascii, Str.is_ascii_upper, Str.is_ascii_lower, Str.KELVIN,
    Str.DOTTED_I, Str.COMBINING_DOT.

Lemma lower_char_ascii (c : char) :
  Str.is_ascii c = true -> Str.lower_char c = [Str.lower_ascii c].
Proof. unfold_case. char_cases; discriminate. Qed.

Lemma lower_char_not_empty (c : char) : Str.lower_char c <> [].
Proof. unfold_case. char_cases; discriminate. Qed.

Lemma is_cased_lower (c : char) :
  Str.is_cased (Str.lower_ascii c) = Str.is_cased c.
Proof. unfold_case. char_cases. Qed.

Lemma is_cased_title (c : char) :
  Str.is_cased (Str.title_char c) = Str.is_cased c.
Proof. unfold_case. char_cases. Qed.

Lemma lower_lower (c : char) :
  Str.lower_ascii (Str.lower_ascii c) = Str.lower_ascii c.
Proof. unfold_case. char_cases. Qed.

Lemma title_title (c : char) :
  Str.title_char (Str.title_char c) = Str.title_char c.
Proof. unfold_case. char_cases. Qed.

Lemma title_lower (c : char) :
  Str.title_char (Str.lower_ascii c) = Str.title_char c.
Proof. unfold_case. char_cases. Qed.

Lemma lower_uncased (c : char) :
  (if Str.is_cased c then c else Str.lower_ascii c) = c.
Proof. unfold_case. char_cases. Qed.

Lemma is_ascii_lower_char (c : char) :
  Str.is_ascii c = true -> Str.is_ascii (Str.lower_ascii c) = true.
Proof. unfold_case. char_cases; discriminate. Qed.

Lemma is_ascii_title_char (c : char) :
  Str.is_ascii c = true -> Str.is_ascii (Str.title_char c) = true.
Proof. unfold_case. char_cases; discriminate. Qed.

(** Lower-casing what is lower-cased, or title-cased, already. *)
Lemma lower_lower_char (c : char) :
  Str.lower (Str.lower_char c) = Str.lower_char c.
Proof.
  unfold Str.lower. unfold_case. char_cases; cbn [flat_map app];
    unfold_case; char_cases.
Qed.

Lemma lower_title_char (c : char) :
  Str.lower_char (Str.title_char c) = Str.lower_char c.
Proof. unfold_case. char_cases; f_equal; lia. Qed.

Lemma lower_title_from (b : bool) (s : str) :
  Str.lower (Str.title_from b s) = Str.lower s.
Proof.
  revert b. induction s as [|c s IH]; intros b; [reflexivity|].
  cbn [Str.title_from].
  change (Str.lower (c :: s)) with (Str.lower_char c ++ Str.lower s).
  destruct (Str.is_cased c).
  - rewrite lower_app, IH. f_equal.
    destruct b; [apply lower_lower_char|].
    change (Str.lower [Str.title_char c])
      with (Str.lower_char (Str.title_char c) ++ []).
    now rewrite app_nil_r, lower_title_char.
  - change (Str.lower (c :: Str.title_from false s))
      with (Str.lower_char c ++ Str.lower (Str.title_from false s)).
    now rewrite IH.
Qed.

(** On ASCII strings the mappings are character by character. *)
Lemma lower_ascii_string (s : str) :
  all_chars Str.is_ascii s = true -> Str.lower s = map Str.lower_ascii s.
Proof.
  induction s as [|c s IH]; [reflexivity|]. cbn [all_chars]. intros H.
  apply andb_prop in H. destruct H as [Hc Hs].
  change (Str.lower (c :: s)) with (Str.lower_char c ++ Str.lower s).
  now rewrite lower_char_ascii, IH.
Qed.

Lemma title_from_cons_ascii (b : bool) (c : char) (s : str) :
  Str.is_ascii c = true ->
  Str.title_from b (c :: s)
  = if Str.is_cased c
    then (if b then Str.lower_ascii c else Str.title_char c)
         :: Str.title_from true s
    else c :: Str.title_from false s.
Proof.
  intros Hc. cbn [Str.title_from]. rewrite (lower_char_ascii c Hc).
  now destruct (Str.is_cased c), b.
Qed.

Lemma title_from_idem_ascii (b : bool) (s : str) :
  all_chars Str.is_ascii s = true ->
  Str.title_from b (Str.title_from b s) = Str.title_from b s.
Proof.
  revert b. induction s as [|c s IH]; intros b; [reflexivity|].
  cbn [all_chars]. intros H. apply andb_prop in H. destruct H as [Hc Hs].
  rewrite (title_from_cons_ascii b c s Hc).
  destruct (Str.is_cased c) eqn:E.
  - destruct b.
    + rewrite title_from_cons_ascii by now apply is_ascii_lower_char.
      now rewrite is_cased_lower, E, lower_lower, IH.
    + rewrite title_from_cons_ascii by now apply is_ascii_title_char.
      now rewrite is_cased_title, E, title_title, IH.
  - rewrite (title_from_cons_ascii b c _ Hc). now rewrite E, IH.
Qed.

Lemma title_from_lower_ascii (b : bool) (s : str) :
  all_chars Str.is_ascii s = true ->
  Str.title_from b (Str.lower s) = Str.title_from b s.
Proof.
  intros Hs. rewrite (lower_ascii_string s Hs).
  revert b Hs. induction s as [|c s IH]; intros b; [reflexivity|].
  cbn [all_chars map]. intros H. apply andb_prop in H. destruct H as [Hc Hs].
  rewrite title_from_cons_ascii by now apply is_ascii_lower_char.
  rewrite (title_from_cons_ascii b c s Hc).
  rewrite is_cased_lower. pose proof (lower_uncased c) as U.
  destruct (Str.is_cased c); rewrite IH by exact Hs.
  - destruct b; now rewrite ?lower_lower, ?title_lower.
  - now rewrite U.
Qed.

Lemma title_from_ascii (b : bool) (s : str) :
  all_chars Str.is_ascii s = true ->
  all_chars Str.is_ascii (Str.title_from b s) = true.
Proof.
  revert b. induction s as [|c s IH]; intros b; [reflexivity|].
  cbn [all_chars]. intros H. apply andb_prop in H.
  destruct H as [Hc Hs]. rewrite (title_from_cons_ascii b c s Hc).
  destruct (Str.is_cased c); cbn [all_chars]; rewrite IH by exact Hs.
  - destruct b; now rewrite ?is_ascii_lower_char, ?is_ascii_title_char.
  - now rewrite Hc.
Qed.

Lemma title_idem_ascii (s : str) :
  all_chars Str.is_ascii s = true -> Str.title (Str.title s) = Str.title s.
Proof. apply title_from_idem_ascii. Qed.

(** Two title-cased ASCII strings that agree up to case are equal. *)
Lemma title_lower_inj (x y : str) :
  all_chars Str.is_ascii x = true -> all_chars Str.is_ascii y = true ->
  Str.title x = x -> Str.title y = y -> Str.lower x = Str.lower y -> x = y.
Proof.
  intros Ax Ay Hx Hy H. rewrite <- Hx, <- Hy. unfold Str.title.
  rewrite <- (title_from_lower_ascii false x Ax).
  rewrite <- (title_from_lower_ascii false y Ay).
  now rewrite H.
Qed.

(** ** C8: skill detection *)

Lemma found_loop_eq (txt : str) (pool acc : list str) :
  fold_left (found_step txt) pool acc
  = acc ++ map Str.title
               (filter (fun s => Str.str_in (Str.lower s) txt) pool).
Proof.
  revert acc. induction pool as [|s pool IH]; intros acc; simpl.
  - now rewrite app_nil_r.
  - rewrite IH. unfold found_step.
    destruct (Str.str_in (Str.lower s) txt); [|reflexivity].
    now rewrite <- app_assoc.
Qed.

Lemma mem_In (x : str) (l : list str) : Str.mem x l = true <-> In x l.
Proof.
  unfold Str.mem. rewrite existsb_exists. split.
  - intros [y [Hy E]]. apply str_eqb_eq in E. now subst.
  - intros H. exists x. split; [exact H | apply str_eqb_refl].
Qed.

Lemma mem_app_one (y x : str) (acc : list str) :
  negb (Str.mem y (acc ++ [x]))
  = (negb (Str.eqb y x) && negb (Str.mem y acc))%bool.
Proof.
  unfold Str.mem. rewrite existsb_app. simpl.
  destruct (existsb (Str.eqb y) acc), (Str.eqb y x); reflexivity.
Qed.

Lemma filter_filter {A : Type} (p q : A -> bool) (l : list A) :
  filter p (filter q l) = filter (fun x => (q x && p x)%bool) l.
Proof.
  induction l as [|x l IH]; simpl; [reflexivity|].
  destruct (q x); simpl; [destruct (p x)|]; now rewrite IH.
Qed.

Lemma dedupe_loop_from (l acc : list str) :
  fold_left dedupe_step l acc
  = acc ++ filter (fun y => negb (Str.mem y acc)) (first_seen l).
Proof.
  revert acc. induction l as [|x l IH]; intros acc; cbn [fold_left first_seen].
  - simpl. now rewrite app_nil_r.
  - unfold dedupe_step at 2. cbn [filter]. rewrite filter_filter.
    destruct (Str.mem x acc) eqn:E; cbn [negb].
    + rewrite IH. f_equal. apply filter_ext_in. intros y _.
      destruct (str_eqb_spec y x) as [->|_]; [now rewrite E | reflexivity].
    + rewrite IH, <- app_assoc. cbn [app]. do 2 f_equal.
      apply filter_ext. intros y. apply mem_app_one.
Qed.

Lemma dedupe_loop_eq (l : list str) :
  fold_left dedupe_step l [] = first_seen l.
Proof.
  rewrite dedupe_loop_from. cbn [app].
  apply filter_all. reflexivity.
Qed.

Lemma first_seen_In (x : str) (l : list str) :
  In x (first_seen l) <-> In x l.
Proof.
  induction l as [|y l IH]; [reflexivity|].
  cbn [first_seen In]. rewrite filter_In, IH.
  destruct (str_eqb_spec x y) as [->|Hne]; [tauto|].
  cbn [negb]. intuition congruence.
Qed.

Lemma first_seen_NoDup (l : list str) : NoDup (first_seen l).
Proof.
  induction l as [|y l IH]; cbn [first_seen]; constructor.
  - rewrite filter_In, str_eqb_refl. now intros [_ H].
  - now apply NoDup_filter.
Qed.

Lemma first_seen_app (l1 l2 : list str) :
  first_seen (l1 ++ l2)
  = first_seen l1 ++ filter (fun z => negb (Str.mem z l1)) (first_seen l2).
Proof.
  induction l1 as [|x l1 IH]; cbn [app first_seen].
  - symmetry. apply filter_all. reflexivity.
  - rewrite IH, filter_app, filter_filter. cbn [app]. do 2 f_equal.
    apply filter_ext. intros z. unfold Str.mem. cbn [existsb].
    destruct (existsb (Str.eqb z) l1), (Str.eqb z x); reflexivity.
Qed.

(** What comes out before an element is what was seen before it. *)
Lemma first_seen_before (l1 l2 : list str) (y : str) :
  ~ In y l1 ->
  exists rest, first_seen (l1 ++ y :: l2) = first_seen l1 ++ y :: rest.
Proof.
  intros Hy. rewrite first_seen_app. cbn [first_seen filter].
  destruct (Str.mem y l1) eqn:E.
  - apply mem_In in E. contradiction.
  - cbn [negb]. eexists. reflexivity.
Qed.

Lemma NoDup_map_on {A B : Type} (f : A -> B) (l : list A) :
  (forall x y, In x l -> In y l -> f x = f y -> x = y) ->
  NoDup l -> NoDup (map f l).
Proof.
  intros Hinj. induction 1 as [|x l Hx Hnd IH]; cbn [map]; constructor.
  - intros Hin. apply in_map_iff in Hin. destruct Hin as [y [E Hy]].
    assert (y = x) by (apply Hinj; [now right | now left | exact E]).
    now subst.
  - apply IH. intros a b Ha Hb. apply Hinj; now right.
Qed.

Lemma detect_skills_eq (text : option str)
  (custom_skills : option (list str)) :
  detect_skills_simple text custom_skills
  = if truthy text
    then first_seen
           (map Str.title
              (filter (fun s => Str.str_in (Str.lower s)
                                           (Str.lower (text_or_empty text)))
                      (list_or_empty custom_skills ++ catalog_pool)))
    else [].
Proof.
  unfold detect_skills_simple. destruct (truthy text); [|reflexivity].
  now rewrite found_loop_eq, dedupe_loop_eq.
Qed.

Lemma catalog_pool_ascii :
  Forall (fun s => all_chars Str.is_ascii s = true) catalog_pool.
Proof. apply Forall_forall. vm_compute. intuition (subst; reflexivity). Qed.

(** C8, as the code has it: the detected skills are the title-cased names
    of the pool entries (custom skills, then the catalog) that occur in the
    lower-cased text, each kept where it is first seen, so that the names
    in front of a name are those found before it; no name occurs twice;
    when the custom skills are ASCII, as the catalog is, every name is left
    as it is by [title] and no two names are equal up to case; an empty or
    missing text gives the empty list. *)
Theorem detect_skills_titled_once_in_order (text : option str)
  (custom_skills : option (list str)) :
  let pool := list_or_empty custom_skills ++ catalog_pool in
  let found :=
    map Str.title
        (filter (fun s => Str.str_in (Str.lower s)
                                     (Str.lower (text_or_empty text)))
                pool) in
  let out := detect_skills_simple text custom_skills in
  out = (if truthy text then first_seen found else []) /\
  (forall x, In x out <-> truthy text = true /\ In x found) /\
  (forall l1 y l2, truthy text = true -> found = l1 ++ y :: l2 -> ~ In y l1 ->
                   exists rest, out = first_seen l1 ++ y :: rest) /\
  NoDup out /\
  (Forall (fun s => all_chars Str.is_ascii s = true)
          (list_or_empty custom_skills) ->
   Forall (fun x => Str.title x = x) out /\ NoDup (map Str.lower out)) /\
  detect_skills_simple (Some []) custom_skills = [] /\
  detect_skills_simple None custom_skills = [].
Proof.
  cbv zeta. rewrite detect_skills_eq.
  set (pool := list_or_empty custom_skills ++ catalog_pool).
  set (found := map Str.title _).
  assert (Hin : forall x,
             In x (if truthy text then first_seen found else [])
             <-> truthy text = true /\ In x found).
  { intros x. destruct (truthy text).
    - rewrite first_seen_In. tauto.
    - cbn [In]. intuition discriminate. }
  assert (Hnd : NoDup (if truthy text then first_seen found else [])).
  { destruct (truthy text); [apply first_seen_NoDup | constructor]. }
  split; [reflexivity|]. split; [exact Hin|]. split.
  { intros l1 y l2 Htext Hf Hy. rewrite Htext, Hf.
    now apply first_seen_before. }
  split; [exact Hnd|]. split; [|split; reflexivity].
  intros Hascii.
  assert (Hout : forall x,
             In x (if truthy text then first_seen found else []) ->
             Str.title x = x /\ all_chars Str.is_ascii x = true).
  { intros x Hx. apply Hin in Hx. destruct Hx as [_ Hx].
    unfold found in Hx. apply in_map_iff in Hx. destruct Hx as [s [<- Hs]].
    assert (As : all_chars Str.is_ascii s = true).
    { apply filter_In in Hs. destruct Hs as [Hs _].
      unfold pool in Hs. apply in_app_or in Hs.
      pose proof catalog_pool_ascii as Hc.
      rewrite Forall_forall in Hascii, Hc.
      destruct Hs as [Hs|Hs]; [now apply Hascii | now apply Hc]. }
    split; [now apply title_idem_ascii | now apply title_from_ascii]. }
  split.
  - apply Forall_forall. intros x Hx. now apply Hout.
  - apply NoDup_map_on; [|exact Hnd].
    intros x y Hx Hy. apply Hout in Hx, Hy.
    apply title_lower_inj; tauto.
Qed.

Lemma detect_skills_titled_once_in_order_witness :
  detect_skills_simple (Some (lit "I know JavaScript, python and SQL."))
                       (Some [lit "PYTHON"; lit "rust"])
  = [lit "Python"; lit "Sql"; lit "Javascript"; lit "Java"] /\
  NoDup (map Str.lower
           (detect_skills_simple (Some (lit "I know JavaScript, python and SQL."))
                                 (Some [lit "PYTHON"; lit "rust"]))).
Proof.
  split; [vm_compute; reflexivity|].
  apply (detect_skills_titled_once_in_order
           (Some (lit "I know JavaScript, python and SQL."))
           (Some [lit "PYTHON"; lit "rust"])).
  repeat constructor.
Defined.

(** C8 as stated fails for custom skills outside ASCII: the lower case of
    the Kelvin sign is [k], so with the custom skills Kelvin sign and [k] a
    text with a [k] gets both the Kelvin sign and [K], which are equal up to
    case. *)
Lemma kelvin_sign_and_k_are_both_kept :
  detect_skills_simple (Some (lit "k")) (Some [[Str.KELVIN]; lit "k"])
  = [[Str.KELVIN]; lit "K"] /\
  ~ NoDup (map Str.lower
             (detect_skills_simple (Some (lit "k"))
                                   (Some [[Str.KELVIN]; lit "k"]))).
Proof.
  assert (E : detect_skills_simple (Some (lit "k"))
                                   (Some [[Str.KELVIN]; lit "k"])
              = [[Str.KELVIN]; lit "K"]) by (vm_compute; reflexivity).
  split; [exact E|]. rewrite E. intros H.
  inversion H as [|x l Hx _]. apply Hx. now left.
Qed.

(** ** Characters of a string *)

Lemma all_chars_map_str (P Q : char -> bool) (f : char -> char)
  (s : str) :
  (forall c, implb (P c) (Q (f c)) = true) ->
  all_chars P s = true -> all_chars Q (map f s) = true.
Proof.
  intros Hf. induction s as [|c s IH]; cbn [all_chars map];
    [reflexivity|].
  intros H. apply andb_prop in H. destruct H as [Hc Hs].
  specialize (Hf c). rewrite Hc in Hf. cbn [implb] in Hf.
  now rewrite Hf, IH.
Qed.

Lemma map_str_fixed (f : char -> char) (s : str) :
  all_chars (fun c => N.eqb (f c) c) s = true -> map f s = s.
Proof.
  induction s as [|c s IH]; cbn [all_chars map]; [reflexivity|].
  intros H. apply andb_prop in H. destruct H as [Hc Hs].
  apply N.eqb_eq in Hc. now rewrite Hc, IH.
Qed.

Lemma all_chars_weaken (P Q : char -> bool) (s : str) :
  (forall c, implb (P c) (Q c) = true) ->
  all_chars P s = true -> all_chars Q s = true.
Proof.
  intros Hf. induction s as [|c s IH]; cbn [all_chars]; [reflexivity|].
  intros H. apply andb_prop in H. destruct H as [Hc Hs].
  specialize (Hf c). rewrite Hc in Hf. cbn [implb] in Hf.
  now rewrite Hf, IH.
Qed.

Lemma all_chars_append (P : char -> bool) (s t : str) :
  all_chars P (s ++ t) = (all_chars P s && all_chars P t)%bool.
Proof.
  induction s as [|c s IH]; simpl; [reflexivity|].
  now rewrite IH, andb_assoc.
Qed.

Lemma all_chars_newlines (P : char -> bool) (n : nat) :
  P LF = true -> all_chars P (newlines n) = true.
Proof.
  intros H. induction n as [|n IH]; cbn [newlines all_chars];
    [reflexivity | now rewrite H, IH].
Qed.

Lemma all_chars_collapse (P : char -> bool) (s : str) (run : nat) :
  P LF = true -> all_chars P s = true ->
  all_chars P (collapse_from run s) = true.
Proof.
  intros HLF. revert run.
  induction s as [|c s IH]; intros run; cbn [collapse_from all_chars].
  - intros _. now apply all_chars_newlines.
  - intros H. apply andb_prop in H. destruct H as [Hc Hs].
    destruct (N.eqb c LF); [now apply IH|].
    rewrite all_chars_append. cbn [all_chars].
    now rewrite all_chars_newlines, Hc, IH.
Qed.

Lemma all_chars_lstrip (P : char -> bool) (s : str) :
  all_chars P s = true -> all_chars P (Str.lstrip s) = true.
Proof.
  induction s as [|c s IH]; cbn [Str.lstrip]; [reflexivity|].
  intros H. destruct (Str.is_space c); [|exact H].
  cbn [all_chars] in H. apply andb_prop in H. now apply IH.
Qed.

Lemma all_chars_rstrip (P : char -> bool) (s : str) :
  all_chars P s = true -> all_chars P (Str.rstrip s) = true.
Proof.
  induction s as [|c s IH]; cbn [Str.rstrip all_chars]; [reflexivity|].
  intros H. apply andb_prop in H. destruct H as [Hc Hs].
  specialize (IH Hs). destruct (Str.rstrip s) as [|d r].
  - destruct (Str.is_space c); cbn [all_chars]; [reflexivity | now rewrite Hc].
  - cbn [all_chars] in *. now rewrite Hc, IH.
Qed.

(** ** Runs of line feeds *)

Lemma newlines_shift (n : nat) (t : str) :
  (newlines n ++ LF :: t) = (newlines (S n) ++ t).
Proof.
  induction n as [|n IH]; [reflexivity|].
  cbn [newlines app] in *. now rewrite IH.
Qed.

(** A string without a run of three is left as it is. *)
Lemma collapse_no_run3 (s : str) (run : nat) :
  (run <= 2)%nat -> no_run3_from run s = true ->
  collapse_from run s = (newlines run ++ s).
Proof.
  revert run. induction s as [|c s IH]; intros run Hrun;
    cbn [collapse_from no_run3_from].
  - intros _. now rewrite app_nil_r, Nat.min_l.
  - destruct (N.eqb_spec c LF) as [->|_].
    + intros H. apply andb_prop in H. destruct H as [Hlt Hs].
      apply Nat.ltb_lt in Hlt. rewrite IH by (lia || exact Hs).
      now rewrite newlines_shift.
    + intros H. rewrite IH by (lia || exact H). now rewrite Nat.min_l.
Qed.

Lemma no_run3_newlines (j k : nat) (t : str) :
  (j + k <= 2)%nat ->
  no_run3_from j (newlines k ++ t) = no_run3_from (j + k) t.
Proof.
  revert j. induction k as [|k IH]; intros j H.
  - now rewrite Nat.add_0_r.
  - cbn [newlines app no_run3_from].
    rewrite (proj2 (N.eqb_eq LF LF) eq_refl).
    rewrite IH by lia. replace (S j + k)%nat with (j + S k)%nat by lia.
    assert (E : (j <? 2)%nat = true) by (apply Nat.ltb_lt; lia).
    now rewrite E.
Qed.

(** The result of the substitution has no run of three. *)
Lemma no_run3_collapse (s : str) (run : nat) :
  no_run3_from 0 (collapse_from run s) = true.
Proof.
  revert run. induction s as [|c s IH]; intros run; cbn [collapse_from].
  - rewrite <- (app_nil_r (newlines _)).
    rewrite no_run3_newlines by (simpl; lia). reflexivity.
  - destruct (N.eqb c LF) eqn:E; [apply IH|].
    rewrite no_run3_newlines by (simpl; lia).
    cbn [no_run3_from]. rewrite E. apply IH.
Qed.

Lemma no_run3_map_str (g : char -> char) (s : str) (run : nat) :
  (forall c, N.eqb (g c) LF = N.eqb c LF) ->
  no_run3_from run (map g s) = no_run3_from run s.
Proof.
  intros Hg. revert run.
  induction s as [|c s IH]; intros run; cbn [map no_run3_from];
    [reflexivity|].
  rewrite Hg. now rewrite !IH.
Qed.

Lemma no_run3_mono (s : str) (r r' : nat) :
  (r' <= r)%nat -> no_run3_from r s = true -> no_run3_from r' s = true.
Proof.
  revert r r'. induction s as [|c s IH]; intros r r' Hle;
    cbn [no_run3_from]; [reflexivity|].
  destruct (N.eqb c LF); [|tauto].
  intros H. apply andb_prop in H. destruct H as [Hlt Hs].
  apply Nat.ltb_lt in Hlt.
  assert (E : (r' <? 2)%nat = true) by (apply Nat.ltb_lt; lia).
  rewrite E. apply (IH (S r)); [lia | exact Hs].
Qed.

Lemma no_run3_lstrip (s : str) (run : nat) :
  no_run3_from run s = true -> no_run3_from 0 (Str.lstrip s) = true.
Proof.
  revert run. induction s as [|c s IH]; intros run; cbn [Str.lstrip];
    [reflexivity|].
  intros H. destruct (Str.is_space c).
  - cbn [no_run3_from] in H. destruct (N.eqb c LF).
    + apply andb_prop in H. destruct H as [_ H]. now apply (IH (S run)).
    + now apply (IH 0%nat).
  - apply (no_run3_mono _ run); [lia | exact H].
Qed.

Lemma no_run3_rstrip (s : str) (run : nat) :
  no_run3_from run s = true -> no_run3_from run (Str.rstrip s) = true.
Proof.
  revert run. induction s as [|c s IH]; intros run;
    cbn [Str.rstrip no_run3_from]; [reflexivity|].
  destruct (N.eqb c LF) eqn:E.
  - intros H. apply andb_prop in H. destruct H as [Hlt Hs].
    specialize (IH _ Hs). destruct (Str.rstrip s) as [|d r].
    + destruct (Str.is_space c); cbn [no_run3_from]; [reflexivity|].
      now rewrite E, Hlt.
    + cbn [no_run3_from]. rewrite E, Hlt. exact IH.
  - intros H. specialize (IH _ H). destruct (Str.rstrip s) as [|d r].
    + destruct (Str.is_space c); cbn [no_run3_from]; [reflexivity|].
      now rewrite E.
    + cbn [no_run3_from]. rewrite E. exact IH.
Qed.

(** ** Stripping twice *)

Lemma rstrip_idem (s : str) : Str.rstrip (Str.rstrip s) = Str.rstrip s.
Proof.
  induction s as [|c s IH]; [reflexivity|].
  cbn [Str.rstrip]. destruct (Str.rstrip s) as [|d r] eqn:E.
  - destruct (Str.is_space c) eqn:Ec; [reflexivity|].
    cbn [Str.rstrip]. now rewrite Ec.
  - change (Str.rstrip (c :: d :: r))
      with (match Str.rstrip (d :: r) with
            | [] => if Str.is_space c then [] else [c]
            | x => c :: x
            end).
    now rewrite IH.
Qed.

Lemma lstrip_head (s : str) :
  Str.lstrip s = [] \/
  exists c t, Str.lstrip s = c :: t /\ Str.is_space c = false.
Proof.
  induction s as [|c s IH]; [now left|].
  cbn [Str.lstrip]. destruct (Str.is_space c) eqn:E; [exact IH|].
  right. now exists c, s.
Qed.

Lemma rstrip_head (c : char) (t : str) :
  Str.is_space c = false -> exists w, Str.rstrip (c :: t) = c :: w.
Proof.
  intros E. cbn [Str.rstrip]. destruct (Str.rstrip t) as [|d r].
  - rewrite E. now exists [].
  - now exists (d :: r).
Qed.

Lemma strip_idem (s : str) : Str.strip (Str.strip s) = Str.strip s.
Proof.
  unfold Str.strip. destruct (lstrip_head s) as [->|[c [t [-> E]]]];
    [reflexivity|].
  destruct (rstrip_head c t E) as [w Hw].
  assert (L : Str.lstrip (Str.rstrip (c :: t)) = Str.rstrip (c :: t)).
  { rewrite Hw. cbn [Str.lstrip]. now rewrite E. }
  rewrite L. apply rstrip_idem.
Qed.

(** ** C9: cleaning a cleaned text *)

Lemma cr_to_lf_no_cr (c : char) :
  implb true
        (negb (N.eqb (if N.eqb c CR then LF else c) CR)) = true.
Proof. unfold not_cr_nbsp, CR, LF, NBSP, SPACE. char_cases. Qed.

Lemma nbsp_to_space_no_cr_nbsp (c : char) :
  implb (negb (N.eqb c CR))
        (not_cr_nbsp (if N.eqb c NBSP then SPACE else c)) = true.
Proof. unfold not_cr_nbsp, CR, LF, NBSP, SPACE. char_cases. Qed.

Lemma nbsp_to_space_keeps_lf (c : char) :
  N.eqb (if N.eqb c NBSP then SPACE else c) LF = N.eqb c LF.
Proof. unfold not_cr_nbsp, CR, LF, NBSP, SPACE. char_cases. Qed.

Lemma not_cr_nbsp_cr_fixed (c : char) :
  implb (not_cr_nbsp c)
        (N.eqb (if N.eqb c CR then LF else c) c) = true.
Proof. unfold not_cr_nbsp, CR, LF, NBSP, SPACE. char_cases. Qed.

Lemma not_cr_nbsp_nbsp_fixed (c : char) :
  implb (not_cr_nbsp c)
        (N.eqb (if N.eqb c NBSP then SPACE else c) c) = true.
Proof. unfold not_cr_nbsp, CR, LF, NBSP, SPACE. char_cases. Qed.

(** Every result of [clean_text] is in cleaned form. *)
Lemma clean_text_cleaned (text : option str) : cleaned (clean_text text).
Proof.
  unfold clean_text. destruct (truthy text); [|now repeat split].
  cbv zeta. set (s := text_or_empty text).
  unfold cleaned, Str.strip, collapse_newlines, Str.replace_char.
  split; [|split].
  - apply all_chars_rstrip, all_chars_lstrip.
    apply (all_chars_map_str (fun c => negb (N.eqb c CR)));
      [exact nbsp_to_space_no_cr_nbsp|].
    apply all_chars_collapse; [reflexivity|].
    apply (all_chars_map_str (fun _ => true)); [exact cr_to_lf_no_cr|].
    clear. induction s as [|c s IH]; [reflexivity | exact IH].
  - apply no_run3_rstrip, (no_run3_lstrip _ 0).
    rewrite no_run3_map_str by exact nbsp_to_space_keeps_lf.
    apply no_run3_collapse.
  - apply strip_idem.
Qed.

(** A text in cleaned form is left as it is. *)
Lemma clean_text_fixed (x : str) :
  cleaned x -> clean_text (Some x) = x.
Proof.
  intros [Hc [Hr Hs]]. destruct x as [|c x]; [reflexivity|].
  unfold clean_text. cbn [truthy text_or_empty Str.is_empty negb].
  cbv zeta. unfold Str.replace_char, collapse_newlines.
  rewrite (map_str_fixed (fun c => if N.eqb c CR then LF else c))
    by (apply (all_chars_weaken not_cr_nbsp);
        [exact not_cr_nbsp_cr_fixed | exact Hc]).
  rewrite collapse_no_run3 by (lia || exact Hr). cbn [newlines app].
  rewrite (map_str_fixed (fun c => if N.eqb c NBSP then SPACE else c))
    by (apply (all_chars_weaken not_cr_nbsp);
        [exact not_cr_nbsp_nbsp_fixed | exact Hc]).
  exact Hs.
Qed.

(** C9: cleaning the result of [clean_text] again changes nothing. *)
Theorem clean_text_idempotent (text : option str) :
  clean_text (Some (clean_text text)) = clean_text text.
Proof. apply clean_text_fixed, clean_text_cleaned. Qed.

(** ** C10: the Skill Highlighting suggestions *)

Lemma wanted_skill_highlighting (selected_areas : option (list str)) :
  list_or_empty selected_areas = [] \/
  In (lit "Skill Highlighting") (list_or_empty selected_areas) ->
  (is_nil (map Str.strip (list_or_empty selected_areas))
   || Str.mem (lit "Skill Highlighting")
              (map Str.strip (list_or_empty selected_areas)))%bool = true.
Proof.
  intros [E|Hin].
  - now rewrite E.
  - apply orb_true_iff. right. apply mem_In.
    change (lit "Skill Highlighting")
      with (Str.strip (lit "Skill Highlighting")) at 1.
    now apply in_map.
Qed.

Lemma supplied_requirements (domain : option str) :
  (if truthy domain then domain_required_skills (text_or_empty domain) else [])
  = match domain with
    | Some d => domain_required_skills d
    | None => []
    end.
Proof. now destruct domain as [[|c d]|]. Qed.

Lemma dict_lookup_head {V : Type} (key : str) (v : V)
  (out : list (str * V)) :
  dict_lookup ((key, v) :: out) key = Some v.
Proof. cbn [dict_lookup]. now rewrite str_eqb_refl. Qed.

(** C10, as the code has it: when Skill Highlighting is selected, or
    nothing is, its suggestions are one per missing skill of the supplied
    domain, for the first 8 in catalog order, each naming the skill, as
    soon as the domain has required skills; with no domain, or with a name
    that has no required skills, it is the single generic suggestion. *)
Theorem skill_highlighting_by_requirements (resume_text : option str)
  (selected_areas : option (list str)) (domain : option str) :
  list_or_empty selected_areas = [] \/
  In (lit "Skill Highlighting") (list_or_empty selected_areas) ->
  let req := match domain with
             | Some d => domain_required_skills d
             | None => []
             end in
  let missing :=
    map skill
        (filter (fun k => negb (skill_in (Str.lower (text_or_empty resume_text))
                                         k))
                req) in
  dict_lookup (generate_improvements resume_text selected_areas domain)
              (lit "Skill Highlighting")
  = Some (match req with
          | [] => [GENERIC_SKILL_HIGHLIGHTING]
          | _ => map skill_highlighting_for (firstn 8 missing)
          end) /\
  Forall (fun s => Str.str_in s (skill_highlighting_for s) = true) missing.
Proof.
  intros Hsel. cbv zeta. split.
  - unfold generate_improvements. cbv zeta.
    rewrite supplied_requirements.
    set (req := match domain with Some d => _ | None => [] end).
    set (sel := map Str.strip (list_or_empty selected_areas)).
    pose proof (wanted_skill_highlighting selected_areas Hsel) as W.
    fold sel in W. rewrite W.
    assert (H : exists rest,
      (if negb (is_nil req)
       then dict_set [] (lit "Skill Highlighting")
              (map skill_highlighting_for
                 (firstn 8
                    (map skill
                       (filter (fun k => negb (Str.str_in (Str.lower (skill k))
                                  (Str.lower (text_or_empty resume_text))))
                               req))))
       else dict_set [] (lit "Skill Highlighting") [GENERIC_SKILL_HIGHLIGHTING])
      = ((lit "Skill Highlighting"),
         match req with
         | [] => [GENERIC_SKILL_HIGHLIGHTING]
         | _ => map skill_highlighting_for
                  (firstn 8
                     (map skill
                        (filter (fun k => negb (skill_in
                                   (Str.lower (text_or_empty resume_text)) k))
                                req)))
         end) :: rest).
    { exists []. now destruct req. }
    destruct H as [rest ->].
    destruct (is_nil sel || Str.mem (lit "Experience Description") sel)%bool,
             (is_nil sel || Str.mem (lit "Projects") sel)%bool,
             (is_nil sel || Str.mem (lit "Overall structure") sel)%bool,
             (is_nil sel || Str.mem (lit "Certifications") sel)%bool;
      unfold dict_set; cbn [app]; apply dict_lookup_head.
  - apply Forall_forall. intros s _. apply str_in_middle.
Qed.

Lemma skill_highlighting_by_requirements_witness :
  dict_lookup (generate_improvements (Some (lit "python pandas numpy sql spark"))
                 (Some [lit "Skill Highlighting"]) (Some (lit "Data Scientist")))
              (lit "Skill Highlighting")
  = Some (map skill_highlighting_for
            [lit "Scikit-Learn"; lit "Machine Learning"; lit "Statistics";
             (lit "Visualization"); lit "Tensorflow"]).
Proof.
  pose proof (skill_highlighting_by_requirements
                (Some (lit "python pandas numpy sql spark"))
                (Some [lit "Skill Highlighting"]) (Some (lit "Data Scientist"))
                (or_intror (or_introl eq_refl))) as H.
  cbv zeta in H. destruct H as [H _]. rewrite H. reflexivity.
Defined.

(** C10 as stated fails for a supplied name that has no required skills:
    it has no missing skill, so one suggestion per missing skill would be
    none, and the code gives the generic suggestion. *)
Lemma unknown_domain_gets_generic_suggestion :
  dict_lookup (generate_improvements (Some (lit "python"))
                 (Some [lit "Skill Highlighting"]) (Some (lit "Astronaut")))
              (lit "Skill Highlighting")
  <> Some (skill_highlighting_by_domain (Some (lit "python"))
                                        (Some (lit "Astronaut"))).
Proof. vm_compute. discriminate. Qed.

(** * Further properties of the code *)

(** ** [clean_text]: what a result looks like *)

Lemma all_chars_In (P : char -> bool) (s : str) (c : char) :
  all_chars P s = true -> In c s -> P c = true.
Proof.
  induction s as [|a s IH]; cbn [all_chars In]; [tauto|].
  intros H [->|Hin]; apply andb_prop in H; destruct H as [Ha Hs];
    [exact Ha | now apply IH].
Qed.

Lemma no_run3_prefix (s : str) (run : nat) :
  no_run3_from run s = true -> Str.prefix [LF; LF; LF] s = false.
Proof.
  destruct s as [|a [|b [|c s]]]; cbn [Str.prefix no_run3_from];
    try reflexivity.
  - intros _. now rewrite andb_false_r.
  - intros _. now rewrite !andb_false_r.
  - destruct (N.eqb_spec LF a) as [<-|]; [|reflexivity].
    destruct (N.eqb_spec LF b) as [<-|]; [|reflexivity].
    destruct (N.eqb_spec LF c) as [<-|]; [|reflexivity].
    rewrite !N.eqb_refl. cbn [andb]. intros H.
    apply andb_prop in H. destruct H as [_ H].
    apply andb_prop in H. destruct H as [_ H].
    apply andb_prop in H. destruct H as [H _].
    apply Nat.ltb_lt in H. lia.
Qed.

Lemma no_run3_no_triple (s : str) (run : nat) :
  no_run3_from run s = true -> Str.str_in [LF; LF; LF] s = false.
Proof.
  revert run. induction s as [|c s IH]; intros run H.
  - reflexivity.
  - cbn [Str.str_in]. rewrite (no_run3_prefix _ _ H).
    cbn [no_run3_from] in H. destruct (N.eqb c LF).
    + apply andb_prop in H. destruct H as [_ H]. now apply (IH (S run)).
    + now apply (IH 0%nat).
Qed.

Lemma lstrip_strip (s : str) : Str.lstrip (Str.strip s) = Str.strip s.
Proof.
  unfold Str.strip. destruct (lstrip_head s) as [->|[c [t [-> E]]]];
    [reflexivity|].
  destruct (rstrip_head c t E) as [w ->]. cbn [Str.lstrip]. now rewrite E.
Qed.

(** X1: a result of [clean_text] holds no carriage return and no
    non-breaking space, nowhere three line feeds in a row, and no white
    space at its start or at its end. *)
Theorem clean_text_result_is_clean (text : option str) :
  let x := clean_text text in
  ~ In CR x /\ ~ In NBSP x /\
  Str.str_in [LF; LF; LF] x = false /\
  Str.lstrip x = x /\ Str.rstrip x = x.
Proof.
  cbv zeta. destruct (clean_text_cleaned text) as [Hc [Hr Hs]].
  split; [|split; [|split; [|split]]].
  - intros Hin. now pose proof (all_chars_In _ _ _ Hc Hin).
  - intros Hin. now pose proof (all_chars_In _ _ _ Hc Hin).
  - now apply (no_run3_no_triple _ 0%nat).
  - rewrite <- Hs. apply lstrip_strip.
  - rewrite <- Hs. unfold Str.strip. apply rstrip_idem.
Qed.

Lemma length_newlines (n : nat) : List.length (newlines n) = n.
Proof. induction n as [|n IH]; cbn [newlines List.length]; congruence. Qed.

Lemma length_collapse (s : str) (run : nat) :
  (List.length (collapse_from run s) <= Nat.min run 2 + List.length s)%nat.
Proof.
  revert run. induction s as [|c s IH]; intros run; cbn [collapse_from].
  - rewrite length_newlines. cbn [List.length]. lia.
  - destruct (N.eqb c LF).
    + specialize (IH (S run)). cbn [List.length]. lia.
    + rewrite length_app, length_newlines. specialize (IH 0%nat).
      cbn [List.length] in *. lia.
Qed.

Lemma length_lstrip (s : str) :
  (List.length (Str.lstrip s) <= List.length s)%nat.
Proof.
  induction s as [|c s IH]; cbn [Str.lstrip]; [lia|].
  destruct (Str.is_space c); cbn [List.length]; lia.
Qed.

Lemma length_rstrip (s : str) :
  (List.length (Str.rstrip s) <= List.length s)%nat.
Proof.
  induction s as [|c s IH]; cbn [Str.rstrip]; [lia|].
  destruct (Str.rstrip s) as [|d r].
  - destruct (Str.is_space c); cbn [List.length] in *; lia.
  - cbn [List.length] in *. lia.
Qed.

(** X2: [clean_text] never makes a text longer. *)
Theorem clean_text_never_longer (text : option str) :
  (List.length (clean_text text) <= List.length (text_or_empty text))%nat.
Proof.
  unfold clean_text. destruct (truthy text); [|cbn [List.length]; lia].
  cbv zeta. unfold Str.strip, collapse_newlines, Str.replace_char.
  set (s := text_or_empty text).
  eapply Nat.le_trans; [apply length_rstrip|].
  eapply Nat.le_trans; [apply length_lstrip|].
  rewrite length_map.
  eapply Nat.le_trans; [apply length_collapse|].
  rewrite length_map, Nat.min_0_l. apply Nat.le_refl.
Qed.

(** ** Adding text to a resume *)

Lemma prefix_app_r (u t b : str) :
  Str.prefix u t = true -> Str.prefix u (t ++ b) = true.
Proof.
  revert t. induction u as [|x u IH]; intros [|y t]; cbn [Str.prefix app];
    try reflexivity; try discriminate.
  intros H. apply andb_prop in H. destruct H as [E H].
  rewrite E. now apply IH.
Qed.

Lemma str_in_app_r (u t b : str) :
  Str.str_in u t = true -> Str.str_in u (t ++ b) = true.
Proof.
  induction t as [|c t IH]; cbn [Str.str_in].
  - destruct (Str.prefix u []) eqn:E; [|discriminate].
    intros _. apply str_in_prefix. now apply (prefix_app_r u [] b).
  - destruct (Str.prefix u (c :: t)) eqn:E; intros H.
    + apply str_in_prefix. now apply (prefix_app_r u (c :: t) b).
    + cbn [app]. apply str_in_cons. now apply IH.
Qed.

Lemma str_in_app_l (u a t : str) :
  Str.str_in u t = true -> Str.str_in u (a ++ t) = true.
Proof.
  intros H. induction a as [|c a IH]; cbn [app];
    [exact H | now apply str_in_cons].
Qed.

(** A substring of a text is a substring of the text with more text around
    it, also after lower-casing. *)
Lemma str_in_lower_around (u a t b : str) :
  Str.str_in u (Str.lower t) = true ->
  Str.str_in u (Str.lower (a ++ t ++ b)) = true.
Proof.
  intros H. rewrite !lower_app.
  now apply str_in_app_l, str_in_app_r.
Qed.

Lemma filter_length_mono {A : Type} (p q : A -> bool) (l : list A) :
  (forall x, p x = true -> q x = true) ->
  (List.length (filter p l) <= List.length (filter q l))%nat.
Proof.
  intros H. induction l as [|x l IH]; cbn [filter]; [lia|].
  destruct (p x) eqn:E.
  - rewrite (H x E). cbn [List.length]. lia.
  - destruct (q x); cbn [List.length]; lia.
Qed.

(** X3: text added in front of a resume or after it never lowers its ATS
    score. *)
Theorem ats_score_grows_with_text (a t b : str) :
  ats_score (Some t) <= ats_score (Some (a ++ t ++ b)).
Proof.
  rewrite !ats_score_closed_form. cbn [text_or_empty].
  apply Z.min_le_compat_l. apply Z.mul_le_mono_nonneg_l; [lia|].
  apply Nat2Z.inj_le. apply filter_length_mono.
  intros w. unfold keyword_in. apply str_in_lower_around.
Qed.

Lemma sum_filter_mono {A : Type} (w : A -> Z) (p q : A -> bool) (l : list A) :
  Forall (fun x => 0 <= w x) l ->
  (forall x, p x = true -> q x = true) ->
  sum (map w (filter p l)) <= sum (map w (filter q l)).
Proof.
  intros Hw H. induction Hw as [|x l Hx _ IH]; cbn [filter map]; [lia|].
  destruct (p x) eqn:E.
  - rewrite (H x E). cbn [map]. rewrite !sum_cons. lia.
  - destruct (q x); cbn [map]; rewrite ?sum_cons; lia.
Qed.

Lemma percent_step_table : weight_table percent_step_ok = true.
Proof. vm_compute. reflexivity. Qed.

Lemma percent_step (m t : Z) :
  0 <= m < t -> 1 <= t <= 50 -> percent m t <= percent (m + 1) t.
Proof.
  intros Hm Ht.
  pose proof (weight_table_sound percent_step_ok m t percent_step_table) as H.
  unfold percent_step_ok in H.
  destruct (Z.ltb_spec m t); [|lia]. apply Z.leb_le. apply H; lia.
Qed.

Lemma percent_mono (m m' t : Z) :
  0 <= m <= m' -> m' <= t -> 1 <= t <= 50 -> percent m t <= percent m' t.
Proof.
  intros Hm Hm' Ht.
  replace m' with (m + Z.of_nat (Z.to_nat (m' - m))) in * by lia.
  induction (Z.to_nat (m' - m)) as [|n IH].
  - rewrite Z.add_0_r. lia.
  - rewrite Nat2Z.inj_succ in *.
    apply Z.le_trans with (percent (m + Z.of_nat n) t); [apply IH; lia|].
    replace (m + Z.succ (Z.of_nat n)) with (m + Z.of_nat n + 1) by lia.
    apply percent_step; lia.
Qed.

Lemma skill_in_around (a t b : str) (k : Requirement) :
  skill_in (Str.lower t) k = true ->
  skill_in (Str.lower (a ++ t ++ b)) k = true.
Proof. unfold skill_in. apply str_in_lower_around. Qed.

Lemma match_percent_grows (a t b : str) (domain : str) :
  match_percent (compute_domain_match (Some t) domain)
  <= match_percent (compute_domain_match (Some (a ++ t ++ b)) domain).
Proof.
  rewrite !compute_domain_match_eq, !match_text_lower.
  cbn [text_or_empty match_percent].
  set (req := domain_required_skills domain).
  destruct (required_weights domain) as [Hw _]. fold req in Hw.
  assert (Hw0 : Forall (fun k => 0 <= importance k) req).
  { apply Forall_forall. intros k Hk. rewrite Forall_forall in Hw.
    specialize (Hw k Hk). lia. }
  pose proof (sum_filter_mono importance _ _ req Hw0 (skill_in_around a t b))
    as Hle.
  destruct (matched_weight_bounds (Str.lower t) domain) as [Hm Ht].
  destruct (matched_weight_bounds (Str.lower (a ++ t ++ b)) domain)
    as [Hm' _].
  fold req in Hm, Hm', Ht.
  assert (Hc : total_weight req = 1 /\ sum (map importance req) = 0
               \/ total_weight req = sum (map importance req)
                  /\ 1 <= sum (map importance req)).
  { unfold total_weight, or_1.
    destruct (Z.eqb_spec (sum (map importance req)) 0); lia. }
  apply percent_mono; lia.
Qed.

(** X4: text added in front of a resume or after it keeps every matched
    skill matched, adds no missing skill, and never lowers the match
    percent. *)
Theorem match_grows_with_text (a t b : str) (domain : str) :
  let r := compute_domain_match (Some t) domain in
  let r' := compute_domain_match (Some (a ++ t ++ b)) domain in
  incl (matched r) (matched r') /\
  incl (missing r') (missing r) /\
  match_percent r <= match_percent r'.
Proof.
  cbv zeta. split; [|split; [|apply match_percent_grows]];
    rewrite !compute_domain_match_eq, !match_text_lower;
    cbn [text_or_empty matched missing].
  - intros k Hk. apply in_map_iff in Hk. destruct Hk as [k0 [<- Hk0]].
    apply in_map_iff. exists k0. split; [reflexivity|].
    apply filter_In in Hk0. apply filter_In.
    split; [tauto|]. apply skill_in_around. tauto.
  - intros k Hk. apply in_map_iff in Hk. destruct Hk as [k0 [<- Hk0]].
    apply in_map_iff. exists k0. split; [reflexivity|].
    apply filter_In in Hk0. apply filter_In.
    split; [tauto|]. destruct Hk0 as [_ Hk0].
    destruct (skill_in (Str.lower t) k0) eqn:E; [|reflexivity].
    now rewrite (skill_in_around a t b k0 E) in Hk0.
Qed.

(** ** Matched skills and detected skills *)

Lemma str_in_nil (u : str) : Str.str_in u [] = true -> u = [].
Proof. destruct u; [reflexivity | discriminate]. Qed.

Lemma required_names_nonempty (domain : str) :
  Forall (fun k => skill k <> []) (domain_required_skills domain).
Proof.
  destruct (required_skills_cases domain) as [E|Hin].
  - rewrite E. constructor.
  - each_domain Hin; repeat constructor; discriminate.
Qed.

Lemma required_names_in_pool (domain : str) (k : Requirement) :
  In k (domain_required_skills domain) ->
  exists s, In s catalog_pool /\ skill k = Str.title s.
Proof.
  unfold domain_required_skills. intros Hk. apply in_map_iff in Hk.
  destruct Hk as [[s w] [<- Hs]]. exists s. split; [|reflexivity].
  destruct (dict_get_cases DOMAIN_SKILL_MAP domain) as [E|Hin].
  - rewrite E in Hs. contradiction.
  - unfold catalog_pool. apply in_flat_map.
    exists (dict_get DOMAIN_SKILL_MAP domain). split.
    + unfold dict_values. now apply (in_map snd) in Hin.
    + now apply (in_map fst) in Hs.
Qed.

Lemma matched_names_detected (text : option str)
  (custom_skills : option (list str)) (domain : str) (k : Requirement) :
  In k (domain_required_skills domain) ->
  Str.str_in (Str.lower (skill k)) (match_text text) = true ->
  In (skill k) (detect_skills_simple text custom_skills).
Proof.
  intros Hk H. rewrite detect_skills_eq. rewrite match_text_lower in H.
  destruct (truthy text) eqn:Et.
  - apply first_seen_In.
    destruct (required_names_in_pool domain k Hk) as [s [Hs E]].
    rewrite E. apply in_map. apply filter_In. split.
    + apply in_or_app. now right.
    + rewrite E in H. unfold Str.title in H.
      now rewrite lower_title_from in H.
  - exfalso.
    assert (Ee : text_or_empty text = []).
    { unfold truthy in Et. now destruct (text_or_empty text). }
    rewrite Ee in H. apply str_in_nil in H.
    pose proof (required_names_nonempty domain) as Hne.
    rewrite Forall_forall in Hne. apply (Hne k Hk).
    destruct (skill k) as [|c n]; [reflexivity|].
    change (Str.lower (c :: n)) with (Str.lower_char c ++ Str.lower n) in H.
    apply app_eq_nil in H. destruct H as [H _].
    now apply lower_char_not_empty in H.
Qed.

(** X5: with ASCII custom skills, the matched skills of a domain are the
    required skills of the domain that [detect_skills_simple] reports for
    the same text. *)
Theorem matched_are_the_detected_requirements (text : option str)
  (custom_skills : option (list str)) (domain : str) :
  Forall (fun s => all_chars Str.is_ascii s = true)
         (list_or_empty custom_skills) ->
  forall n,
    In n (map skill (matched (compute_domain_match text domain))) <->
    In n (map skill (domain_required_skills domain)) /\
    In n (detect_skills_simple text custom_skills).
Proof.
  intros _ n. rewrite compute_domain_match_eq. cbn [matched].
  rewrite (map_skill_scored (fun k => Z.min 10 (importance k * 2))).
  change (skill_in (match_text text))
    with (fun k => (fun n => Str.str_in (Str.lower n) (match_text text))
                     (skill k)).
  rewrite (in_names_filter
             (fun n => Str.str_in (Str.lower n) (match_text text))).
  split; intros [Hreq H]; (split; [exact Hreq|]).
  - apply in_map_iff in Hreq. destruct Hreq as [k [<- Hk]].
    now apply matched_names_detected with domain.
  - rewrite detect_skills_eq in H. rewrite match_text_lower.
    destruct (truthy text); [|contradiction].
    apply (proj1 (first_seen_In _ _)) in H. apply in_map_iff in H.
    destruct H as [s [<- Hs]]. apply filter_In in Hs.
    unfold Str.title. rewrite lower_title_from. tauto.
Qed.

Lemma matched_are_the_detected_requirements_witness :
  In (lit "Sql")
     (map skill (matched (compute_domain_match
                            (Some (lit "I know Python and SQL very well"))
                            (lit "Data Scientist")))) <->
  In (lit "Sql") (map skill (domain_required_skills (lit "Data Scientist"))) /\
  In (lit "Sql")
     (detect_skills_simple (Some (lit "I know Python and SQL very well"))
                           (Some [lit "Rust"])).
Proof.
  apply (matched_are_the_detected_requirements
           (Some (lit "I know Python and SQL very well"))
           (Some [lit "Rust"]) (lit "Data Scientist")).
  repeat constructor.
Defined.

(** ** The areas of [generate_improvements] *)

Lemma areas_distinct : NoDup AREAS.
Proof.
  unfold AREAS.
  repeat (constructor; [vm_compute; intuition discriminate|]).
  constructor.
Qed.

(** X7: the improvements hold the areas that were selected (after
    stripping each name), in the fixed order of the five areas and each
    once; with no selection all five are there, and a selected name that is
    none of the five adds nothing. *)
Theorem improvement_areas_follow_selection (text : option str)
  (selected_areas : option (list str)) (domain : option str) :
  let chosen := map Str.strip (list_or_empty selected_areas) in
  let out := generate_improvements text selected_areas domain in
  dict_keys out
  = filter (fun area => (is_nil chosen || Str.mem area chosen)%bool) AREAS /\
  NoDup (dict_keys out) /\
  dict_keys (generate_improvements text None domain) = AREAS /\
  dict_keys (generate_improvements text (Some []) domain) = AREAS.
Proof.
  cbv zeta.
  assert (K : forall sel,
    dict_keys (generate_improvements text sel domain)
    = filter (fun area => (is_nil (map Str.strip (list_or_empty sel))
                           || Str.mem area (map Str.strip (list_or_empty sel)))%bool)
             AREAS).
  { intros sel. unfold generate_improvements, AREAS. cbv zeta. cbn [filter].
    set (chosen := map Str.strip (list_or_empty sel)).
    destruct (is_nil chosen || Str.mem (lit "Skill Highlighting") chosen)%bool,
             (is_nil chosen || Str.mem (lit "Experience Description") chosen)%bool,
             (is_nil chosen || Str.mem (lit "Projects") chosen)%bool,
             (is_nil chosen || Str.mem (lit "Overall structure") chosen)%bool,
             (is_nil chosen || Str.mem (lit "Certifications") chosen)%bool;
      try (destruct (negb (is_nil
             (if truthy domain
              then domain_required_skills (text_or_empty domain) else []))));
      reflexivity. }
  split; [apply K|]. split; [|split].
  - rewrite K. apply NoDup_filter, areas_distinct.
  - rewrite K. reflexivity.
  - rewrite K. reflexivity.
Qed.

Lemma improvements_start (text : option str)
  (selected_areas : option (list str)) (domain : option str) :
  list_or_empty selected_areas = [] \/
  In (lit "Skill Highlighting") (list_or_empty selected_areas) ->
  let req := if truthy domain then domain_required_skills (text_or_empty domain)
             else [] in
  let names :=
    map skill
        (filter (fun k => negb (Str.str_in (Str.lower (skill k))
                                           (Str.lower (text_or_empty text))))
                req) in
  exists rest,
    generate_improvements text selected_areas domain
    = (lit "Skill Highlighting",
       if negb (is_nil req)
       then map skill_highlighting_for (firstn 8 names)
       else [GENERIC_SKILL_HIGHLIGHTING]) :: rest.
Proof.
  intros Hsel. cbv zeta. unfold generate_improvements. cbv zeta.
  set (req := if truthy domain then _ else []).
  set (sel := map Str.strip (list_or_empty selected_areas)).
  pose proof (wanted_skill_highlighting selected_areas Hsel) as W.
  fold sel in W. rewrite W.
  destruct (negb (is_nil req));
    destruct (is_nil sel || Str.mem (lit "Experience Description") sel)%bool,
             (is_nil sel || Str.mem (lit "Projects") sel)%bool,
             (is_nil sel || Str.mem (lit "Overall structure") sel)%bool,
             (is_nil sel || Str.mem (lit "Certifications") sel)%bool;
    unfold dict_set; cbn [app]; eexists; reflexivity.
Qed.

(** X6: for a domain with required skills, the Skill Highlighting
    suggestions are written for the first 8 missing skills of
    [compute_domain_match] on the same text, in that order. *)
Theorem skill_highlighting_follows_domain_match (text : option str)
  (selected_areas : option (list str)) (domain : str) :
  list_or_empty selected_areas = [] \/
  In (lit "Skill Highlighting") (list_or_empty selected_areas) ->
  domain_required_skills domain <> [] ->
  let names := map skill (missing (compute_domain_match text domain)) in
  dict_lookup (generate_improvements text selected_areas (Some domain))
              (lit "Skill Highlighting")
  = Some (map skill_highlighting_for (firstn 8 names)) /\
  (List.length (firstn 8 names) <= 8)%nat.
Proof.
  intros Hsel Hreq. cbv zeta. split; [|apply firstn_le_length].
  destruct (improvements_start text selected_areas (Some domain) Hsel)
    as [rest ->].
  rewrite dict_lookup_head.
  assert (Ht : truthy (Some domain) = true).
  { destruct domain; [now contradiction Hreq | reflexivity]. }
  rewrite Ht. cbn [text_or_empty].
  destruct (domain_required_skills domain) eqn:E; [contradiction|].
  cbn [is_nil negb]. rewrite <- E.
  rewrite compute_domain_match_eq. cbn [missing].
  rewrite (map_skill_scored (fun _ => 0)), match_text_lower.
  reflexivity.
Qed.

Lemma skill_highlighting_follows_domain_match_witness :
  dict_lookup (generate_improvements (Some (lit "aws azure gcp docker"))
                 None (Some (lit "Cloud Engineer")))
              (lit "Skill Highlighting")
  = Some (map skill_highlighting_for
            (firstn 8 (map skill
                         (missing (compute_domain_match
                                     (Some (lit "aws azure gcp docker"))
                                     (lit "Cloud Engineer")))))).
Proof.
  apply (skill_highlighting_follows_domain_match
           (Some (lit "aws azure gcp docker")) None (lit "Cloud Engineer")).
  - now left.
  - vm_compute. discriminate.
Defined.

(** X8: the suggestions of every area other than Skill Highlighting are
    the same whatever the resume text and the domain. *)
Theorem static_areas_ignore_text_and_domain (text text' : option str)
  (domain domain' : option str) (selected_areas : option (list str))
  (area : str) :
  area <> lit "Skill Highlighting" ->
  dict_lookup (generate_improvements text selected_areas domain) area
  = dict_lookup (generate_improvements text' selected_areas domain') area.
Proof.
  intros Harea. unfold generate_improvements. cbv zeta.
  set (sel := map Str.strip (list_or_empty selected_areas)).
  destruct (is_nil sel || Str.mem (lit "Skill Highlighting") sel)%bool,
           (is_nil sel || Str.mem (lit "Experience Description") sel)%bool,
           (is_nil sel || Str.mem (lit "Projects") sel)%bool,
           (is_nil sel || Str.mem (lit "Overall structure") sel)%bool,
           (is_nil sel || Str.mem (lit "Certifications") sel)%bool;
    try (destruct (negb (is_nil
           (if truthy domain
            then domain_required_skills (text_or_empty domain) else []))));
    try (destruct (negb (is_nil
           (if truthy domain'
            then domain_required_skills (text_or_empty domain') else []))));
    unfold dict_set; cbn [app dict_lookup];
    try reflexivity;
    (destruct (str_eqb_spec area (lit "Skill Highlighting"));
     [contradiction | reflexivity]).
Qed.

Lemma static_areas_ignore_text_and_domain_witness :
  dict_lookup (generate_improvements (Some (lit "python")) None
                                     (Some (lit "QA Engineer")))
              (lit "Projects")
  = dict_lookup (generate_improvements None None None) (lit "Projects").
Proof.
  apply (static_areas_ignore_text_and_domain
           (Some (lit "python")) None (Some (lit "QA Engineer")) None None
           (lit "Projects")).
  vm_compute. discriminate.
Defined.

(** ** The batch: what becomes of each entry *)

Lemma analyse_unreadable {FileObj : Type} (extract : FileObj -> Extraction)
  (domain : str) (entry : Entry FileObj) :
  truthy (entry_text extract entry) = false ->
  analyse extract domain entry = Rec.make (entry_filename entry) 0 0 0.
Proof.
  intros Et. unfold analyse. cbv zeta.
  assert (Ea : ats_score (entry_text extract entry) = 0).
  { unfold ats_score. now rewrite Et. }
  assert (Em : match_percent
                 (compute_domain_match (entry_text extract entry) domain) = 0).
  { destruct (match_percent_empty domain) as [E1 E2].
    destruct (entry_text extract entry) as [[|c s]|];
      [exact E2 | discriminate Et | exact E1]. }
  rewrite Ea, Em. reflexivity.
Qed.

(** X9: an entry whose text could not be extracted (the extraction raised,
    or gave nothing or the empty text) does not stop the batch: the result
    holds its record, with an ATS score, a match percent and a combined
    score of 0. *)
Theorem unreadable_entry_scores_zero {FileObj : Type}
  (extract : FileObj -> Extraction) (resume_files : list (Entry FileObj))
  (domain : str) (entry : Entry FileObj) :
  In entry resume_files ->
  truthy (entry_text extract entry) = false ->
  In (Rec.make (entry_filename entry) 0 0 0)
     (batch_resume_analysis extract resume_files domain).
Proof.
  intros Hin Et. rewrite batch_eq.
  apply (Permutation_in _ (sorted_reverse_perm _ _)).
  rewrite <- (analyse_unreadable extract domain entry Et).
  now apply in_map.
Qed.

Lemma unreadable_entry_scores_zero_witness :
  In (Rec.make (lit "broken.pdf") 0 0 0)
     (batch_resume_analysis
        (fun f : option str => match f with
                               | Some t => Returned (Some t)
                               | None => Raised
                               end)
        [mkEntry (lit "good.pdf") (Some (lit "python sql aws"));
         mkEntry (lit "broken.pdf") None]
        (lit "Data Scientist")).
Proof.
  apply (unreadable_entry_scores_zero
           (fun f : option str => match f with
                                  | Some t => Returned (Some t)
                                  | None => Raised
                                  end)
           [mkEntry (lit "good.pdf") (Some (lit "python sql aws"));
            mkEntry (lit "broken.pdf") None]
           (lit "Data Scientist") (mkEntry (lit "broken.pdf") None)).
  - right. now left.
  - reflexivity.
Defined.

(** X10: the batch result has one record for each entry, and the file
    names of the records are those of the entries. *)
Theorem batch_keeps_every_entry {FileObj : Type}
  (extract : FileObj -> Extraction) (resume_files : list (Entry FileObj))
  (domain : str) :
  List.length (batch_resume_analysis extract resume_files domain)
  = List.length resume_files /\
  Permutation (map Rec.filename
                   (batch_resume_analysis extract resume_files domain))
              (map entry_filename resume_files).
Proof.
  rewrite batch_eq.
  pose proof (sorted_reverse_perm Rec.combined_score
                (map (analyse extract domain) resume_files)) as P.
  split.
  - rewrite <- (Permutation_length P). apply length_map.
  - rewrite <- (Permutation_map Rec.filename P), map_map. reflexivity.
Qed.

(** ** The number of interview questions *)

Lemma length_flat_map_repeat {A B : Type} (f : A -> B) (n : nat)
  (l : list A) :
  List.length (flat_map (fun x => repeat (f x) n) l)
  = (List.length l * n)%nat.
Proof.
  induction l as [|x l IH]; cbn [flat_map List.length]; [reflexivity|].
  rewrite length_app, repeat_length, IH. lia.
Qed.

Lemma questions_name_listed_skills (skills : list str) (max_per_skill : Z)
  (difficulty : str) :
  Forall (fun qa => forall s, QA.skill qa = Some s -> In s skills)
         (generate_interview_questions_offline skills max_per_skill
                                               difficulty).
Proof.
  destruct skills as [|s0 skills].
  - repeat constructor; discriminate.
  - unfold generate_interview_questions_offline.
    rewrite outer_loop_eq. cbn [app]. apply Forall_app. split.
    + apply Forall_forall. intros qa Hqa. apply in_flat_map in Hqa.
      destruct Hqa as [s [Hs Hqa]]. apply repeat_spec in Hqa. subst qa.
      intros s' E. unfold question_for in E.
      destruct (Str.eqb difficulty (lit "Basic"));
        [|destruct (Str.eqb difficulty (lit "Hard"))];
        cbn [QA.skill] in E; congruence.
    + repeat constructor. discriminate.
Qed.

(** X11: for a list of skills that is not empty there are
    [max_per_skill] questions for each skill (none when it is not positive)
    and one more; for the empty list there are two; and a question that
    names a skill names one of the list. *)
Theorem question_count (skills : list str) (max_per_skill : Z)
  (difficulty : str) :
  let qs :=
    generate_interview_questions_offline skills max_per_skill difficulty in
  List.length qs
  = match skills with
    | [] => 2%nat
    | _ => (List.length skills * Z.to_nat max_per_skill + 1)%nat
    end /\
  Forall (fun qa => forall s, QA.skill qa = Some s -> In s skills) qs.
Proof.
  cbv zeta. split; [|apply questions_name_listed_skills].
  destruct skills as [|s0 skills]; [reflexivity|].
  unfold generate_interview_questions_offline.
  rewrite outer_loop_eq. cbn [app].
  rewrite length_app, length_flat_map_repeat. cbn [List.length]. lia.
Qed.

(** ** [simple_qa_offline]: what an answer is made of *)

Lemma qa_loop_eq (keywords : list str) (sentences acc : list str) :
  fold_left (qa_step keywords) sentences acc
  = acc ++ filter (any_keyword_in keywords) sentences.
Proof.
  revert acc. induction sentences as [|s l IH]; intros acc;
    cbn [fold_left filter].
  - now rewrite app_nil_r.
  - rewrite IH. unfold qa_step. destruct (any_keyword_in keywords s);
      [now rewrite <- app_assoc | reflexivity].
Qed.

Lemma split_where_pieces (sep : char -> bool) (s : str) :
  Forall (fun p => all_chars (fun c => negb (sep c)) p = true)
         (split_where sep s).
Proof.
  induction s as [|c s IH]; cbn [split_where].
  - repeat constructor.
  - destruct (sep c) eqn:E; [constructor; [reflexivity | exact IH]|].
    destruct (split_where sep s) as [|p ps].
    + repeat constructor. cbn [all_chars]. now rewrite E.
    + inversion IH as [|? ? Hp Hps]; subst. constructor; [|exact Hps].
      cbn [all_chars]. now rewrite E, Hp.
Qed.

Lemma existsb_map {A B : Type} (f : A -> B) (p : B -> bool) (l : list A) :
  existsb p (map f l) = existsb (fun x => p (f x)) l.
Proof.
  induction l as [|x l IH]; cbn [map existsb]; [reflexivity | now rewrite IH].
Qed.

Lemma split_where_within (sep : char -> bool) (s : str) :
  match split_where sep s with
  | [] => False
  | p :: ps => (exists b, s = p ++ b) /\
               forall q, In q ps -> exists a b, s = a ++ q ++ b
  end.
Proof.
  induction s as [|c s IH]; cbn [split_where].
  - split; [now exists [] | intros q []].
  - destruct (split_where sep s) as [|p ps]; [destruct (sep c); contradiction|].
    destruct IH as [[b Hp] Hps]. destruct (sep c).
    + split; [now exists (c :: s)|]. intros q [<-|Hq].
      * exists [c], b. cbn [app]. now rewrite <- Hp.
      * destruct (Hps q Hq) as [a [b' E]]. exists (c :: a), b'.
        cbn [app]. now rewrite <- E.
    + split; [exists b; cbn [app]; now rewrite <- Hp|].
      intros q Hq. destruct (Hps q Hq) as [a [b' E]]. exists (c :: a), b'.
      cbn [app]. now rewrite <- E.
Qed.

Lemma split_where_In (sep : char -> bool) (s p : str) :
  In p (split_where sep s) -> exists a b, s = a ++ p ++ b.
Proof.
  intros H. pose proof (split_where_within sep s) as W.
  destruct (split_where sep s) as [|p0 ps]; [contradiction|].
  destruct W as [[b Hb] Hps]. destruct H as [<-|H].
  - now exists [], b.
  - now apply Hps.
Qed.

Lemma lstrip_suffix (s : str) : exists a, s = a ++ Str.lstrip s.
Proof.
  induction s as [|c s [a E]]; cbn [Str.lstrip]; [now exists []|].
  destruct (Str.is_space c); [|now exists []].
  exists (c :: a). cbn [app]. now rewrite <- E.
Qed.

Lemma rstrip_prefix (s : str) : exists b, s = Str.rstrip s ++ b.
Proof.
  induction s as [|c s [b E]]; cbn [Str.rstrip]; [now exists []|].
  destruct (Str.rstrip s) as [|c0 r].
  - destruct (Str.is_space c); [now exists (c :: s) | now exists s].
  - exists b. cbn [app] in *. now rewrite <- E.
Qed.

Lemma strip_within (s : str) : exists a b, s = a ++ Str.strip s ++ b.
Proof.
  destruct (lstrip_suffix s) as [a Ea].
  destruct (rstrip_prefix (Str.lstrip s)) as [b Eb].
  exists a, b. unfold Str.strip. now rewrite <- Eb.
Qed.

Lemma firstn_incl {A : Type} (n : nat) (l : list A) (x : A) :
  In x (firstn n l) -> In x l.
Proof.
  intros H. rewrite <- (firstn_skipn n l). apply in_or_app. now left.
Qed.

Lemma simple_qa_eq (is_word : char -> bool) (text : option str)
  (question : str) :
  simple_qa_offline is_word text question
  = if truthy text then
      match filter (any_keyword_in (qa_keywords is_word question))
                   (qa_sentences (text_or_empty text)) with
      | [] => NOT_FOUND
      | ms => join [LF; LF] (firstn 6 ms)
      end
    else PLEASE_UPLOAD.
Proof.
  unfold simple_qa_offline. destruct (truthy text); [|reflexivity].
  cbv zeta. rewrite qa_loop_eq. cbn [app].
  now destruct (filter _ _).
Qed.

(** X12: when no word of the question has four characters or more, the
    answer to a resume with text is the message that nothing was found. *)
Theorem short_words_find_nothing (is_word : char -> bool)
  (text : option str) (question : str) :
  findall_words4 is_word question = [] ->
  simple_qa_offline is_word text question
  = if truthy text then NOT_FOUND else PLEASE_UPLOAD.
Proof.
  intros H. rewrite simple_qa_eq. destruct (truthy text); [|reflexivity].
  unfold qa_keywords. rewrite H. cbn [map].
  assert (E : filter (any_keyword_in []) (qa_sentences (text_or_empty text))
              = []).
  { induction (qa_sentences (text_or_empty text)) as [|s l IH];
      [reflexivity | exact IH]. }
  now rewrite E.
Qed.

Lemma short_words_find_nothing_witness :
  simple_qa_offline
    (fun c => ((N.leb 65 c && N.leb c 90) || (N.leb 97 c && N.leb c 122))%bool)
    (Some (lit "I am a data scientist. I use SQL."))
    (lit "Who is he?")
  = NOT_FOUND.
Proof.
  apply (short_words_find_nothing
           (fun c => ((N.leb 65 c && N.leb c 90)
                      || (N.leb 97 c && N.leb c 122))%bool)
           (Some (lit "I am a data scientist. I use SQL."))
           (lit "Who is he?")).
  reflexivity.
Defined.

(** X13: without a resume text the answer asks for one; with one, the
    answer is the message that nothing was found, or it is made of one to
    six sentences joined by blank lines.  Each sentence occurs in the
    resume text (its line feeds read as spaces), is not empty, has no
    white space at either end and no period or line feed in it, and holds,
    up to case, a word of the question that is four or more characters
    long. *)
Theorem answer_quotes_sentences (is_word : char -> bool)
  (text : option str) (question : str) :
  let r := simple_qa_offline is_word text question in
  (truthy text = false /\ r = PLEASE_UPLOAD) \/
  (truthy text = true /\ r = NOT_FOUND) \/
  (truthy text = true /\
   exists ms,
     r = join [LF; LF] ms /\
     (1 <= List.length ms <= 6)%nat /\
     Forall (fun m =>
       Str.str_in m (Str.replace_char LF SPACE (text_or_empty text)) = true /\
       m <> [] /\ Str.strip m = m /\ ~ In DOT m /\ ~ In LF m /\
       existsb (fun w => Str.str_in (Str.lower w) (Str.lower m))
               (findall_words4 is_word question) = true)
       ms).
Proof.
  cbv zeta. rewrite simple_qa_eq.
  destruct (truthy text); [|left; now split].
  right.
  destruct (filter _ _) as [|m0 ms0] eqn:E; [left; now split|].
  right. split; [reflexivity|]. exists (firstn 6 (m0 :: ms0)).
  split; [reflexivity|]. split.
  - split; [cbn [firstn List.length]; lia | apply firstn_le_length].
  - apply Forall_forall. intros m Hm. apply firstn_incl in Hm.
    rewrite <- E in Hm. apply filter_In in Hm. destruct Hm as [Hs Hk].
    unfold qa_sentences in Hs. cbv zeta in Hs.
    apply in_map_iff in Hs. destruct Hs as [p [<- Hp]].
    apply filter_In in Hp. destruct Hp as [Hp Hne].
    pose proof (split_where_pieces
                  (fun c => (N.eqb c DOT || N.eqb c LF)%bool)
                  (Str.replace_char LF SPACE (text_or_empty text))) as Hall.
    rewrite Forall_forall in Hall. specialize (Hall p Hp).
    assert (Hstrip : all_chars
                       (fun c => negb (N.eqb c DOT || N.eqb c LF)%bool)
                       (Str.strip p) = true).
    { unfold Str.strip. now apply all_chars_rstrip, all_chars_lstrip. }
    split; [|split; [|split; [|split; [|split]]]].
    + destruct (split_where_In _ _ _ Hp) as [a [b Et]].
      destruct (strip_within p) as [a' [b' Es]].
      assert (Ew : Str.replace_char LF SPACE (text_or_empty text)
                  = (a ++ a') ++ Str.strip p ++ (b' ++ b)).
      { rewrite Et. rewrite Es at 1. now rewrite <- !app_assoc. }
      rewrite Ew. apply str_in_middle.
    + intros E0. rewrite E0 in Hne. discriminate.
    + apply strip_idem.
    + intros Hin. now pose proof (all_chars_In _ _ _ Hstrip Hin).
    + intros Hin. now pose proof (all_chars_In _ _ _ Hstrip Hin).
    + unfold any_keyword_in, qa_keywords in Hk.
      now rewrite existsb_map in Hk.
Qed.

(** ** [find_emails], [find_phones] and [parse_resume] *)

Lemma dict_fromkeys_list_eq (l : list str) :
  dict_fromkeys_list l = first_seen l.
Proof. apply dedupe_loop_eq. Qed.

Lemma all_chars_filter (P : char -> bool) (s : str) :
  all_chars P (filter P s) = true.
Proof.
  induction s as [|c s IH]; cbn [filter]; [reflexivity|].
  destruct (P c) eqn:E; [|exact IH]. cbn [all_chars]. now rewrite E, IH.
Qed.

(** X14: [find_emails] lists the addresses the pattern finds in the text,
    each once, in the order they are first found; without a text it
    lists nothing. *)
Theorem emails_are_listed_once (EMAIL_RE_findall : str -> list str)
  (text : option str) :
  let found := EMAIL_RE_findall (text_or_empty text) in
  let out := find_emails EMAIL_RE_findall text in
  out = (if truthy text then first_seen found else []) /\
  NoDup out /\
  (forall x, In x out <-> truthy text = true /\ In x found) /\
  (forall l1 y l2, truthy text = true -> found = l1 ++ y :: l2 -> ~ In y l1 ->
                   exists rest, out = first_seen l1 ++ y :: rest).
Proof.
  cbv zeta. unfold find_emails. rewrite dict_fromkeys_list_eq.
  destruct (truthy text).
  - split; [reflexivity|]. split; [apply first_seen_NoDup|]. split.
    + intros x. rewrite first_seen_In. tauto.
    + intros l1 y l2 _ -> Hy. now apply first_seen_before.
  - split; [reflexivity|]. split; [constructor|]. split.
    + intros x. cbn [In]. intuition discriminate.
    + intros l1 y l2 H. discriminate H.
Qed.

(** X15: [find_phones] lists the numbers the pattern finds, each reduced to
    its digits and plus signs, and each reduced number once. *)
Theorem phones_are_reduced_and_listed_once (PHONE_RE_findall : str -> list str)
  (text : option str) :
  let out := find_phones PHONE_RE_findall text in
  NoDup out /\
  Forall (fun p => all_chars digits_and_plus p = true) out /\
  (forall x, In x out <->
             truthy text = true /\
             exists p, In p (PHONE_RE_findall (text_or_empty text)) /\
                       x = only_digits_and_plus p).
Proof.
  cbv zeta. unfold find_phones. cbv zeta. rewrite dict_fromkeys_list_eq.
  destruct (truthy text).
  - assert (Hin : forall x,
               In x (first_seen (map only_digits_and_plus
                                     (PHONE_RE_findall (text_or_empty text))))
               <-> exists p, In p (PHONE_RE_findall (text_or_empty text)) /\
                             x = only_digits_and_plus p).
    { intros x. rewrite first_seen_In, in_map_iff.
      split; intros [p [H1 H2]]; exists p; [split; [exact H2 | now symmetry]
                                           | split; [now symmetry | exact H1]]. }
    split; [apply first_seen_NoDup|]. split.
    + apply Forall_forall. intros x Hx. apply Hin in Hx.
      destruct Hx as [p [_ ->]]. apply all_chars_filter.
    + intros x. rewrite Hin. tauto.
  - split; [constructor|]. split; [constructor|].
    intros x. cbn [In]. intuition discriminate.
Qed.


(** X16: the name [parse_resume] gives is the first address the pattern
    finds in the text, and the empty string when it finds none; it is one
    of the listed addresses when there are any.  Without a text the
    addresses, the numbers and the name are empty and the ATS score
    is 0. *)
Theorem parsed_name_is_first_email (EMAIL_RE_findall : str -> list str)
  (PHONE_RE_findall : str -> list str) (txt : option str) :
  let p := parse_resume_text EMAIL_RE_findall PHONE_RE_findall txt in
  Parsed.name p
  = (if truthy txt
     then match EMAIL_RE_findall (text_or_empty txt) with
          | e :: _ => e
          | [] => []
          end
     else []) /\
  (Parsed.emails p <> [] -> In (Parsed.name p) (Parsed.emails p)) /\
  (truthy txt = false ->
   Parsed.emails p = [] /\ Parsed.phones p = [] /\
   Parsed.ats_score p = 0 /\ Parsed.name p = []).
Proof.
  cbv zeta. unfold parse_resume_text.
  cbn [Parsed.name Parsed.emails Parsed.phones Parsed.ats_score].
  unfold find_emails, find_phones, ats_score. cbv zeta.
  rewrite !dict_fromkeys_list_eq.
  destruct (truthy txt).
  - split; [|split; [|discriminate]].
    + now destruct (EMAIL_RE_findall (text_or_empty txt)).
    + destruct (EMAIL_RE_findall (text_or_empty txt)) as [|e l];
        cbn [first_seen]; [contradiction | intros _; now left].
  - split; [reflexivity|]. split; [contradiction|].
    intros _. repeat split.
Qed.

(** ** Detected skills and added text *)

(** X17: with ASCII custom skills, text added in front of a resume or
    after it loses no detected skill. *)
Theorem detected_skills_grow_with_text (a t b : str)
  (custom_skills : option (list str)) :
  Forall (fun s => all_chars Str.is_ascii s = true)
         (list_or_empty custom_skills) ->
  incl (detect_skills_simple (Some t) custom_skills)
       (detect_skills_simple (Some (a ++ t ++ b)) custom_skills).
Proof.
  intros _ x Hx. rewrite detect_skills_eq in *. cbn [text_or_empty] in *.
  destruct (truthy (Some t)) eqn:Et; [|contradiction].
  assert (Et' : truthy (Some (a ++ t ++ b)) = true).
  { destruct t as [|c t]; [discriminate|]. unfold truthy.
    cbn [text_or_empty]. now destruct a. }
  rewrite Et'. apply first_seen_In.
  apply (proj1 (first_seen_In _ _)) in Hx. apply in_map_iff in Hx.
  destruct Hx as [s [<- Hs]]. apply in_map. apply filter_In in Hs.
  apply filter_In. split; [tauto|]. apply str_in_lower_around. tauto.
Qed.

Lemma detected_skills_grow_with_text_witness :
  incl (detect_skills_simple (Some (lit "SQL")) (Some [lit "Rust"]))
       (detect_skills_simple
          (Some (lit "I know " ++ lit "SQL" ++ lit " and rust"))
          (Some [lit "Rust"])).
Proof.
  apply (detected_skills_grow_with_text (lit "I know ") (lit "SQL")
           (lit " and rust") (Some [lit "Rust"])).
  repeat constructor.
Defined.

(** ** A full match and no match *)

Lemma weights_nil (l : list Requirement) :
  Forall (fun k => 1 <= importance k <= 5) l ->
  sum (map importance l) = 0 -> l = [].
Proof.
  intros Hw Hs.
  assert (Hf : Forall (fun x => 1 <= x <= 5) (map importance l)).
  { apply Forall_forall. intros x Hx. apply in_map_iff in Hx.
    destruct Hx as [k [<- Hk]]. rewrite Forall_forall in Hw. now apply Hw. }
  pose proof (sum_bounds _ 1 5 Hf) as B. rewrite length_map in B.
  destruct l; [reflexivity | cbn [List.length] in B; lia].
Qed.

Lemma filter_weights (p : Requirement -> bool) (l : list Requirement) :
  Forall (fun k => 1 <= importance k <= 5) l ->
  Forall (fun k => 1 <= importance k <= 5) (filter p l).
Proof.
  intros Hw. apply Forall_forall. intros k Hk. apply filter_In in Hk.
  rewrite Forall_forall in Hw. apply Hw. tauto.
Qed.

Lemma map_nil_iff {A B : Type} (f : A -> B) (l : list A) :
  map f l = [] <-> l = [].
Proof. destruct l; cbn [map]; split; intros H; congruence. Qed.

(** X18: the match percent is 100 exactly when the domain has requirements
    and none is missing, and it is 0 exactly when no requirement is
    matched. *)
Theorem full_match_and_no_match (text : option str) (domain : str) :
  let r := compute_domain_match text domain in
  (match_percent r = 100 <->
   missing r = [] /\ domain_required_skills domain <> []) /\
  (match_percent r = 0 <-> matched r = []).
Proof.
  cbv zeta. rewrite compute_domain_match_eq.
  cbn [match_percent matched missing]. rewrite !map_nil_iff.
  set (txt := match_text text).
  destruct (matched_weight_bounds txt domain) as [Hm Ht].
  destruct (required_weights domain) as [Hw _].
  pose proof (sum_filter_split importance (skill_in txt)
                (domain_required_skills domain)) as Hs.
  pose proof (weights_nil _ (filter_weights (skill_in txt) _ Hw)) as Hn1.
  pose proof (weights_nil _ (filter_weights
                               (fun k => negb (skill_in txt k)) _ Hw)) as Hn2.
  pose proof (weights_nil _ Hw) as Hn3.
  set (req := domain_required_skills domain) in *.
  set (m := sum (map importance (filter (skill_in txt) req))) in *.
  set (mm := sum (map importance
                    (filter (fun k => negb (skill_in txt k)) req))) in *.
  set (s := sum (map importance req)) in *.
  assert (Hc : total_weight req = 1 /\ s = 0
               \/ total_weight req = s /\ 1 <= s).
  { unfold total_weight, or_1. fold s. destruct (Z.eqb_spec s 0); lia. }
  assert (Hmm : 0 <= mm).
  { assert (Hf : Forall (fun x => 1 <= x <= 5)
                        (map importance
                           (filter (fun k => negb (skill_in txt k)) req))).
    { apply Forall_forall. intros x Hx. apply in_map_iff in Hx.
      destruct Hx as [k [<- Hk]].
      pose proof (filter_weights (fun k => negb (skill_in txt k)) _ Hw) as F.
      rewrite Forall_forall in F. now apply F. }
    pose proof (sum_bounds _ 1 5 Hf) as B. fold mm in B. lia. }
  assert (Hp : 0 <= percent m (total_weight req) <= 100 /\
               2 * Z.abs (100 * m - total_weight req
                                    * percent m (total_weight req))
               <= total_weight req).
  { apply percent_nearest; lia. }
  split; split.
  - intros E. rewrite E in Hp.
    assert (Hmt : m = total_weight req) by lia.
    assert (Hs1 : 1 <= s) by lia.
    split.
    + apply Hn2. fold mm. lia.
    + intros Hreq. unfold s in Hs1. rewrite Hreq in Hs1.
      change (sum (map importance [])) with 0 in Hs1. lia.
  - intros [Hmis Hreq].
    assert (Emm : mm = 0) by (subst mm; now rewrite Hmis).
    assert (Hs1 : 1 <= s).
    { destruct (Z.eq_dec s 0) as [E0|]; [|lia].
      exfalso. apply Hreq. now apply Hn3. }
    replace m with (total_weight req) by lia.
    apply percent_full. lia.
  - intros E. rewrite E in Hp. apply Hn1. fold m. lia.
  - intros Hmat.
    assert (Em : m = 0) by (subst m; now rewrite Hmat).
    rewrite Em in *.
    set (tw := total_weight req) in *. set (p := percent 0 tw) in *.
    destruct (Z.eq_dec p 0) as [E0|Hne]; [exact E0|]. exfalso.
    assert (Hp1 : 1 <= p) by lia.
    assert (Hmul : tw * 1 <= tw * p) by (apply Z.mul_le_mono_nonneg_l; lia).
    lia.
Qed.

(** ** What the page shows of a domain match *)

(** X19: whatever the text and the domain, the two wedges of the chart of
    the match percent have sizes that are not negative and add up to
    100. *)
Theorem pie_of_a_match_is_well_formed (text : option str) (domain : str) :
  let pct := match_percent (domain_match_for_ui text domain) in
  Forall (fun size => 0 <= size) (pie_sizes pct) /\
  sum (pie_sizes pct) = 100.
Proof.
  cbv zeta. unfold domain_match_for_ui, pie_sizes.
  pose proof (match_percent_range text domain) as H.
  split; [repeat constructor; lia|].
  rewrite !sum_cons. change (sum []) with 0. lia.
Qed.

(** X20: the message under the chart reports a low fit for an empty or a
    missing text; and text added in front of a resume or after it keeps a
    good fit a good fit and cannot turn another message into that of a low
    fit. *)
Theorem fit_message_grows_with_text (a t b : str) (domain : str) :
  let v := fit_message (match_percent (domain_match_for_ui (Some t) domain)) in
  let v' := fit_message
              (match_percent
                 (domain_match_for_ui (Some (a ++ t ++ b)) domain)) in
  (v = GoodFit -> v' = GoodFit) /\
  (v' = LowFit -> v = LowFit) /\
  fit_message (match_percent (domain_match_for_ui None domain)) = LowFit /\
  fit_message (match_percent (domain_match_for_ui (Some []) domain))
  = LowFit.
Proof.
  cbv zeta. unfold domain_match_for_ui.
  pose proof (match_percent_grows a t b domain) as H.
  destruct (match_percent_empty domain) as [E1 E2]. rewrite E1, E2.
  unfold fit_message.
  repeat match goal with
         | |- context [Z.leb ?x ?y] => destruct (Z.leb_spec x y)
         end;
    repeat split; intros; try reflexivity; try discriminate; lia.
Qed.

Lemma length_str_times (c : char) (n : Z) :
  List.length (str_times c n) = Z.to_nat n.
Proof. apply repeat_length. Qed.

Lemma count_occ_repeat_other (c d : char) (n : nat) :
  c <> d -> count_occ N.eq_dec (repeat c n) d = 0%nat.
Proof.
  intros H. induction n as [|n IH]; cbn [repeat count_occ]; [reflexivity|].
  destruct (N.eq_dec c d); [contradiction | exact IH].
Qed.

Lemma count_occ_repeat_same (c : char) (n : nat) :
  count_occ N.eq_dec (repeat c n) c = n.
Proof.
  induction n as [|n IH]; cbn [repeat count_occ]; [reflexivity|].
  destruct (N.eq_dec c c); [now rewrite IH | contradiction].
Qed.

(** X21: every missing skill of a domain match is shown with five stars,
    as many of them black as the importance of the skill, which is at
    least one. *)
Theorem missing_skill_has_five_stars (text : option str) (domain : str)
  (m : Requirement) :
  In m (missing (domain_match_for_ui text domain)) ->
  List.length (stars m) = 5%nat /\
  count_occ N.eq_dec (stars m) BLACK_STAR = Z.to_nat (importance m) /\
  1 <= importance m <= 5.
Proof.
  unfold domain_match_for_ui. rewrite compute_domain_match_eq.
  cbn [missing]. intros Hm. apply in_map_iff in Hm.
  destruct Hm as [k [<- Hk]]. apply filter_In in Hk. destruct Hk as [Hk _].
  destruct (required_weights domain) as [Hw _].
  rewrite Forall_forall in Hw. specialize (Hw k Hk).
  unfold stars, set_score. cbn [importance].
  split; [|split; [|exact Hw]].
  - rewrite length_app, !length_str_times. lia.
  - unfold str_times. rewrite count_occ_app, count_occ_repeat_same,
      count_occ_repeat_other; [lia | discriminate].
Qed.

Lemma missing_skill_has_five_stars_witness :
  List.length (stars (mkReq (lit "Pandas") 5 (Some 0))) = 5%nat /\
  count_occ N.eq_dec (stars (mkReq (lit "Pandas") 5 (Some 0))) BLACK_STAR
  = Z.to_nat (importance (mkReq (lit "Pandas") 5 (Some 0))) /\
  1 <= importance (mkReq (lit "Pandas") 5 (Some 0)) <= 5.
Proof.
  apply (missing_skill_has_five_stars (Some (lit "python"))
           (lit "Data Scientist") (mkReq (lit "Pandas") 5 (Some 0))).
  vm_compute. tauto.
Defined.

(** X22: the interview questions are asked about skills that
    [detect_skills_simple] finds in the analysed text: the matched skills
    of the domain match when there are any, and all detected skills
    otherwise; so a question that names a skill names a detected one. *)
Theorem questions_are_about_detected_skills (txt : option str)
  (domain : str) (max_per_skill : Z) (difficulty : str) :
  let skills := question_skills (domain_match_for_ui txt domain) txt in
  incl skills (detect_skills_for_ui txt None) /\
  Forall (fun qa => forall s, QA.skill qa = Some s ->
                              In s (detect_skills_for_ui txt None))
         (generate_interview_questions_offline skills max_per_skill
                                               difficulty).
Proof.
  cbv zeta.
  assert (Hincl : incl (question_skills (domain_match_for_ui txt domain) txt)
                       (detect_skills_for_ui txt None)).
  { unfold question_skills, domain_match_for_ui, detect_skills_for_ui.
    destruct (map skill (matched (compute_domain_match txt domain)))
      as [|n names] eqn:E; [apply incl_refl|].
    rewrite <- E. clear E. intros x Hx.
    rewrite compute_domain_match_eq in Hx. cbn [matched] in Hx.
    rewrite (map_skill_scored (fun k => Z.min 10 (importance k * 2))) in Hx.
    apply in_map_iff in Hx. destruct Hx as [k [<- Hk]].
    apply filter_In in Hk. destruct Hk as [Hk Hin].
    now apply matched_names_detected with domain. }
  split; [exact Hincl|].
  eapply Forall_impl; [|apply questions_name_listed_skills].
  intros qa H s E. apply Hincl. now apply H.
Qed.
